(** * FMO repeater: header codec and echo service

    A shallow embedding of [fmo_header.py] and of the buffering, timeout and
    replay logic of [fmo_echo_service.py], with the properties of the
    header codec and of the replay state machine proved about it.

    Conventions.
    - [bytes] is a list of [Byte.byte]; [byte_val] gives the value 0..255.
    - A Python [str] is the list of its code points ([pystr]); the elements
      of a [str] range over 0..0x10FFFF, surrogates included.
    - A Python [int] is a [Z].
    - A call that can raise returns a [result]; [Raise e] is the exception.
    - [time.time()] is read as an integer number of clock ticks. *)

From Stdlib Require Import ZArith List Bool Lia String Ascii.
From Stdlib Require Import Strings.Byte.
From Stdlib Require Import Numbers.DecimalString.
Import ListNotations.
Local Open Scope Z_scope.

Set Implicit Arguments.

(* ================================================================== *)
(** ** Python values, exceptions and results *)

Definition bytes := list byte.
Definition pystr := list Z.

(** The values that header attributes and update arguments hold. *)
Inductive pyval : Type :=
| PyInt (z : Z)
| PyStr (s : pystr).

(** The exceptions the two modules raise.  [AttributeError name] carries the
    name of the attribute it is about. *)
Inductive exn : Type :=
| ValueError
| AttributeError (name : string)
| StructError
| TypeError
| UnicodeEncodeError
| OverflowError.

Inductive result (A : Type) : Type :=
| Ok (a : A)
| Raise (e : exn).
Arguments Raise {A} e.

Definition rbind {A B} (r : result A) (k : A -> result B) : result B :=
  match r with
  | Ok a => k a
  | Raise e => Raise e
  end.

Declare Scope result_scope.
Delimit Scope result_scope with res.
Notation "x <- r ;; k" := (rbind r (fun x => k))
  (at level 61, r at next level, right associativity) : result_scope.

Definition list_eqb {A} (eqb : A -> A -> bool) : list A -> list A -> bool :=
  fix go (l1 l2 : list A) : bool :=
    match l1, l2 with
    | [], [] => true
    | x :: l1', y :: l2' => eqb x y && go l1' l2'
    | _, _ => false
    end.

(** [==] between two header values: an [int] never equals a [str]. *)
Definition pyval_eqb (v w : pyval) : bool :=
  match v, w with
  | PyInt a, PyInt b => a =? b
  | PyStr s, PyStr t => list_eqb Z.eqb s t
  | _, _ => false
  end.

(* ================================================================== *)
(** ** Bytes *)

Definition byte_val (b : byte) : Z := Z.of_N (Byte.to_N b).

(** The byte of value [z mod 256]. *)
Definition byte_of_Z (z : Z) : byte :=
  match Byte.of_N (Z.to_N (z mod 256)) with
  | Some b => b
  | None => x00
  end.

Definition is_zero_byte (b : byte) : bool := Byte.eqb b x00.

(** [bs.rstrip(b'\x00')]: drop every trailing zero byte. *)
Fixpoint rstrip_zeros (bs : bytes) : bytes :=
  match bs with
  | [] => []
  | b :: t =>
      match rstrip_zeros t with
      | [] => if is_zero_byte b then [] else [b]
      | t' => b :: t'
      end
  end.

(** [bs[:n]] for an integer [n]: a negative [n] counts from the end. *)
Definition slice_to (n : Z) (bs : bytes) : bytes :=
  if n <? 0
  then firstn (Z.to_nat (Z.of_nat (List.length bs) + n)) bs
  else firstn (Z.to_nat n) bs.

(** The bytes of [bs.ljust(n, b'\x00')]: [bs] padded on the right up to [n]
    bytes. *)
Definition ljust_zeros (n : Z) (bs : bytes) : bytes :=
  bs ++ repeat x00 (Z.to_nat n - List.length bs).

(** The largest [Py_ssize_t] of a 64-bit build ([sys.maxsize]), and the size
    of the header of a [bytes] object, which counts against it. *)
Definition PY_SSIZE_T_MAX : Z := 2 ^ 63 - 1.
Definition PyBytesObject_SIZE : Z := 33.

(** [bs.ljust(n, b'\x00')] for an integer [n]. The width is converted to a
    [Py_ssize_t], and a padded result must not pass the largest size of a
    [bytes] object: [OverflowError] in both cases. An allocation of a size
    within that bound is taken to succeed. *)
Definition ljust (n : Z) (bs : bytes) : result bytes :=
  if (n <? - PY_SSIZE_T_MAX - 1) || (PY_SSIZE_T_MAX <? n)
  then Raise OverflowError
  else if (Z.of_nat (List.length bs) <? n)
          && (PY_SSIZE_T_MAX - PyBytesObject_SIZE <? n)
  then Raise OverflowError
  else Ok (ljust_zeros n bs).

(** [bs[a:b]] for [0 <= a <= b]. *)
Definition slice (a b : nat) (bs : bytes) : bytes :=
  firstn (b - a) (skipn a bs).

(* ================================================================== *)
(** ** UTF-8 *)

Definition REPLACEMENT : Z := 0xFFFD.

(** A Unicode scalar value: a code point that is not a surrogate. *)
Definition is_scalar (c : Z) : bool :=
  (0 <=? c) && (c <=? 0x10FFFF) && negb ((0xD800 <=? c) && (c <=? 0xDFFF)).

(** The UTF-8 form of one code point; a surrogate has none. *)
Definition utf8_encode_char (c : Z) : option bytes :=
  if negb (is_scalar c) then None
  else if c <? 0x80 then Some [byte_of_Z c]
  else if c <? 0x800 then
    Some [byte_of_Z (0xC0 + c / 64); byte_of_Z (0x80 + c mod 64)]
  else if c <? 0x10000 then
    Some [byte_of_Z (0xE0 + c / 4096);
          byte_of_Z (0x80 + (c / 64) mod 64);
          byte_of_Z (0x80 + c mod 64)]
  else
    Some [byte_of_Z (0xF0 + c / 262144);
          byte_of_Z (0x80 + (c / 4096) mod 64);
          byte_of_Z (0x80 + (c / 64) mod 64);
          byte_of_Z (0x80 + c mod 64)].

(** [s.encode('utf-8')] with the default strict error handling. *)
Fixpoint utf8_encode (s : pystr) : result bytes :=
  match s with
  | [] => Ok []
  | c :: s' =>
      match utf8_encode_char c with
      | None => Raise UnicodeEncodeError
      | Some bs => rbind (utf8_encode s') (fun r => Ok (bs ++ r))
      end
  end.

Definition is_cont (b : byte) : bool :=
  (0x80 <=? byte_val b) && (byte_val b <? 0xC0).

Definition cont_bits (b : byte) : Z := byte_val b - 0x80.

(** [bs.decode('utf-8', errors='replace')].  The decoder reads one sequence
    at a time; an ill-formed sequence is replaced by one U+FFFD covering
    the bytes read up to the offending one (at least the lead byte), and
    decoding resumes right after them; input that ends inside a sequence
    gives one U+FFFD for what is left. *)
Fixpoint utf8_decode (bs : bytes) : pystr :=
  match bs with
  | [] => []
  | b1 :: r1 =>
    let ch := byte_val b1 in
    if ch <? 0x80 then ch :: utf8_decode r1
    else if ch <? 0xC2 then REPLACEMENT :: utf8_decode r1
    else if ch <? 0xE0 then
      match r1 with
      | [] => [REPLACEMENT]
      | b2 :: r2 =>
        if negb (is_cont b2) then REPLACEMENT :: utf8_decode r1
        else ((ch - 0xC0) * 64 + cont_bits b2) :: utf8_decode r2
      end
    else if ch <? 0xF0 then
      match r1 with
      | [] => [REPLACEMENT]
      | b2 :: r2 =>
        if negb (is_cont b2)
           || (if byte_val b2 <? 0xA0 then ch =? 0xE0 else ch =? 0xED)
        then REPLACEMENT :: utf8_decode r1
        else
          match r2 with
          | [] => [REPLACEMENT]
          | b3 :: r3 =>
            if negb (is_cont b3) then REPLACEMENT :: utf8_decode r2
            else ((ch - 0xE0) * 4096 + cont_bits b2 * 64 + cont_bits b3)
                   :: utf8_decode r3
          end
      end
    else if ch <? 0xF5 then
      match r1 with
      | [] => [REPLACEMENT]
      | b2 :: r2 =>
        if negb (is_cont b2)
           || (if byte_val b2 <? 0x90 then ch =? 0xF0 else ch =? 0xF4)
        then REPLACEMENT :: utf8_decode r1
        else
          match r2 with
          | [] => [REPLACEMENT]
          | b3 :: r3 =>
            if negb (is_cont b3) then REPLACEMENT :: utf8_decode r2
            else
              match r3 with
              | [] => [REPLACEMENT]
              | b4 :: r4 =>
                if negb (is_cont b4) then REPLACEMENT :: utf8_decode r3
                else ((ch - 0xF0) * 262144 + cont_bits b2 * 4096
                      + cont_bits b3 * 64 + cont_bits b4)
                       :: utf8_decode r4
              end
          end
      end
    else REPLACEMENT :: utf8_decode r1
  end.

(* ================================================================== *)
(** ** [struct] with the format ["<IHHH12s"] *)

(** A little-endian unsigned integer on [n] bytes. *)
Fixpoint le_bytes (n : nat) (z : Z) : bytes :=
  match n with
  | O => []
  | S n' => byte_of_Z z :: le_bytes n' (z / 256)
  end.

Fixpoint le_value (bs : bytes) : Z :=
  match bs with
  | [] => 0
  | b :: t => byte_val b + 256 * le_value t
  end.

(** One integer field of [width] bytes: [struct.pack] raises [struct.error]
    for an argument that is not an integer or does not fit. *)
Definition pack_uint (width : nat) (v : pyval) : result bytes :=
  match v with
  | PyInt z =>
      if (0 <=? z) && (z <? 2 ^ (8 * Z.of_nat width))
      then Ok (le_bytes width z)
      else Raise StructError
  | PyStr _ => Raise StructError
  end.

(** The [12s] field: the argument is cut or zero-padded to 12 bytes. *)
Definition pack_12s (bs : bytes) : bytes :=
  firstn 12 (bs ++ repeat x00 12).

Definition struct_pack (version padding1 uid padding2 : pyval)
           (callsign_padded : bytes) : result bytes :=
  (v <- pack_uint 4 version ;;
   p1 <- pack_uint 2 padding1 ;;
   u <- pack_uint 2 uid ;;
   p2 <- pack_uint 2 padding2 ;;
   Ok (v ++ p1 ++ u ++ p2 ++ pack_12s callsign_padded))%res.

(** [struct.unpack("<IHHH12s", data)] for [data] of exactly 22 bytes. *)
Definition struct_unpack (data : bytes) : Z * Z * Z * Z * bytes :=
  (le_value (slice 0 4 data),
   le_value (slice 4 6 data),
   le_value (slice 6 8 data),
   le_value (slice 8 10 data),
   slice 10 22 data).

(* ================================================================== *)
(** ** [fmo_header.py] *)

Module Header.

Definition VERSION_SIZE : nat := 4.
Definition UID_SIZE : nat := 2.
Definition CALLSIGN_SIZE : nat := 12.
Definition PADDING_SIZE_1 : nat := 2.
Definition PADDING_SIZE_2 : nat := 2.
Definition HEADER_SIZE : nat :=
  VERSION_SIZE + PADDING_SIZE_1 + UID_SIZE + PADDING_SIZE_2 + CALLSIGN_SIZE.

(** An [FMORawHeader] object: the five attributes [__init__] binds, and
    [shadow], the other entries of the instance dictionary (an attribute
    assigned on the instance under a name that the class also binds). *)
Record FMORawHeader : Type := mkHeader {
  version : pyval;
  uid : pyval;
  callsign : pyval;
  padding1 : pyval;
  padding2 : pyval;
  shadow : list (string * pyval)
}.

(** [FMORawHeader(version, uid, callsign, padding1, padding2)]. *)
Definition init (version uid callsign padding1 padding2 : pyval)
  : FMORawHeader :=
  mkHeader version uid callsign padding1 padding2 [].

Definition field_names : list string :=
  ["version"; "uid"; "callsign"; "padding1"; "padding2"]%string.

(** The names the class body binds. *)
Definition class_names : list string :=
  ["VERSION_SIZE"; "UID_SIZE"; "CALLSIGN_SIZE"; "PADDING_SIZE_1";
   "PADDING_SIZE_2"; "HEADER_SIZE"; "__init__"; "from_bytes"; "to_bytes";
   "__repr__"]%string.

(** The names an instance finds besides: those the [class] statement adds
    to the class and those of [object] (CPython 3.11). *)
Definition inherited_names : list string :=
  ["__dict__"; "__doc__"; "__module__"; "__weakref__";
   "__class__"; "__delattr__"; "__dir__"; "__eq__"; "__format__"; "__ge__";
   "__getattribute__"; "__getstate__"; "__gt__"; "__hash__";
   "__init_subclass__"; "__le__"; "__lt__"; "__ne__"; "__new__";
   "__reduce__"; "__reduce_ex__"; "__setattr__"; "__sizeof__"; "__str__";
   "__subclasshook__"]%string.

Definition mem (k : string) (l : list string) : bool :=
  existsb (String.eqb k) l.

Fixpoint lookup (k : string) (d : list (string * pyval)) : option pyval :=
  match d with
  | [] => None
  | (k', v) :: d' => if String.eqb k k' then Some v else lookup k d'
  end.

Fixpoint store (k : string) (v : pyval) (d : list (string * pyval))
  : list (string * pyval) :=
  match d with
  | [] => [(k, v)]
  | (k', v') :: d' =>
      if String.eqb k k' then (k, v) :: d' else (k', v') :: store k v d'
  end.

(** [hasattr(header, key)]: the instance dictionary, then the class and
    [object]. *)
Definition hasattr (h : FMORawHeader) (key : string) : bool :=
  mem key field_names
  || match lookup key (shadow h) with Some _ => true | None => false end
  || mem key class_names
  || mem key inherited_names.

(** The data descriptors among these names, which [setattr] asks first:
    [__class__] takes a class only and [__dict__] a dictionary only, so both
    refuse an [int] or a [str] with [TypeError]; [__weakref__] cannot be
    written. *)
Definition descriptor_refuses (key : string) : option exn :=
  if String.eqb key "__class__" then Some TypeError
  else if String.eqb key "__dict__" then Some TypeError
  else if String.eqb key "__weakref__" then Some (AttributeError key)
  else None.

(** [setattr(header, key, value)] for a [key] that no data descriptor
    refuses: the value goes to the instance dictionary. *)
Definition setattr (h : FMORawHeader) (key : string) (value : pyval)
  : FMORawHeader :=
  if String.eqb key "version" then
    mkHeader value (uid h) (callsign h) (padding1 h) (padding2 h) (shadow h)
  else if String.eqb key "uid" then
    mkHeader (version h) value (callsign h) (padding1 h) (padding2 h)
             (shadow h)
  else if String.eqb key "callsign" then
    mkHeader (version h) (uid h) value (padding1 h) (padding2 h) (shadow h)
  else if String.eqb key "padding1" then
    mkHeader (version h) (uid h) (callsign h) value (padding2 h) (shadow h)
  else if String.eqb key "padding2" then
    mkHeader (version h) (uid h) (callsign h) (padding1 h) value (shadow h)
  else
    mkHeader (version h) (uid h) (callsign h) (padding1 h) (padding2 h)
             (store key value (shadow h)).

(** [FMORawHeader.from_bytes(data)]. *)
Definition from_bytes (data : bytes) : result FMORawHeader :=
  if (List.length data <? HEADER_SIZE)%nat then Raise ValueError
  else
    let '(version, padding1, uid, padding2, callsign_bytes) :=
      struct_unpack (slice 0 HEADER_SIZE data) in
    let callsign := utf8_decode (rstrip_zeros callsign_bytes) in
    Ok (init (PyInt version) (PyInt uid) (PyStr callsign)
             (PyInt padding1) (PyInt padding2)).

(** [self.CALLSIGN_SIZE]: the instance dictionary first, then the class. *)
Definition self_CALLSIGN_SIZE (self : FMORawHeader) : pyval :=
  match lookup "CALLSIGN_SIZE" (shadow self) with
  | Some v => v
  | None => PyInt (Z.of_nat CALLSIGN_SIZE)
  end.

(** [self.callsign.encode('utf-8')]: an [int] has no [encode]. *)
Definition encode_callsign (v : pyval) : result bytes :=
  match v with
  | PyStr s => utf8_encode s
  | PyInt _ => Raise (AttributeError "encode")
  end.

(** [header.to_bytes()] as the method of the class. *)
Definition to_bytes (self : FMORawHeader) : result bytes :=
  (encoded <- encode_callsign (callsign self) ;;
   match self_CALLSIGN_SIZE self with
   | PyStr _ => Raise TypeError
   | PyInt size =>
       let callsign_encoded := slice_to size encoded in
       callsign_padded <- ljust size callsign_encoded ;;
       struct_pack (version self) (padding1 self) (uid self)
                   (padding2 self) callsign_padded
   end)%res.

(** The loop over [updates.items()]. *)
Fixpoint apply_updates (header : FMORawHeader)
         (updates : list (string * pyval)) : result FMORawHeader :=
  match updates with
  | [] => Ok header
  | (key, value) :: rest =>
      if negb (hasattr header key) then Raise (AttributeError key)
      else match descriptor_refuses key with
           | Some e => Raise e
           | None => apply_updates (setattr header key value) rest
           end
  end.

(** [header.to_bytes()] at the call site: an instance attribute named
    [to_bytes] hides the method, and an [int] or [str] cannot be called. *)
Definition call_to_bytes (header : FMORawHeader) : result bytes :=
  match lookup "to_bytes" (shadow header) with
  | Some _ => Raise TypeError
  | None => to_bytes header
  end.

(** [replace_header_in_stream(stream, **updates)]; [updates] lists the
    keyword arguments in call order (their keys are distinct). *)
Definition replace_header_in_stream (stream : bytes)
           (updates : list (string * pyval)) : result bytes :=
  (header <- from_bytes stream ;;
   header' <- apply_updates header updates ;;
   new_header <- call_to_bytes header' ;;
   let payload := skipn HEADER_SIZE stream in
   Ok (new_header ++ payload))%res.

(** *** The headers and updates of the statements below *)

(** An [int] that fits an unsigned field of [width] bytes. *)
Definition fits (width : nat) (v : pyval) : bool :=
  match v with
  | PyInt z => (0 <=? z) && (z <? 2 ^ (8 * Z.of_nat width))
  | PyStr _ => false
  end.

(** A [str] of Unicode scalar values (a text without lone surrogates). *)
Definition is_text (v : pyval) : bool :=
  match v with
  | PyStr s => forallb is_scalar s
  | PyInt _ => false
  end.

(** A header whose attributes have the types of the wire format and whose
    instance dictionary holds nothing but the five fields. *)
Definition header_ok (h : FMORawHeader) : bool :=
  fits VERSION_SIZE (version h) && fits PADDING_SIZE_1 (padding1 h)
  && fits UID_SIZE (uid h) && fits PADDING_SIZE_2 (padding2 h)
  && is_text (callsign h)
  && match shadow h with [] => true | _ :: _ => false end.

(** An update of one of the five fields with a value of the field's type. *)
Definition update_ok (u : string * pyval) : bool :=
  let '(key, value) := u in
  if String.eqb key "version" then fits VERSION_SIZE value
  else if String.eqb key "uid" then fits UID_SIZE value
  else if String.eqb key "callsign" then is_text value
  else if String.eqb key "padding1" then fits PADDING_SIZE_1 value
  else if String.eqb key "padding2" then fits PADDING_SIZE_2 value
  else false.

(** The text ends with U+0000. *)
Definition ends_with_NUL (s : pystr) : bool := last s 1 =? 0.

(** The number of bytes of the UTF-8 form of a text. *)
Definition utf8_length (s : pystr) : option nat :=
  match utf8_encode s with
  | Ok bs => Some (List.length bs)
  | Raise _ => None
  end.

End Header.

(* ================================================================== *)
(** ** [fmo_echo_service.py] *)

Module EchoService.
Import Header.

(** The entries of the configuration dictionary that the service reads
    after start-up, with the types [validate_config] checks. *)
Record config : Type := mkConfig {
  echo_timeout : Z;
  echo_uid : Z;
  echo_callsign_prefix : pystr;
  topics_publish : string
}.

Inductive level : Type := DEBUG | INFO | WARNING | ERROR.

(** One record per logger call of the three methods below. *)
Inductive log_record : Type :=
| IgnoredOwnMessage (uid callsign : pyval)
| ReceivedMessage (buffer_size : nat) (uid callsign : pyval)
                  (payload_size : nat)
| OnMessageError (e : exn)
| TimeoutDetected (elapsed : Z) (buffered : nat)
| Replayed (i total : nat) (uid callsign : pyval) (new_uid : Z)
           (new_callsign : pystr)
| PublishFailed (i : nat) (rc : Z)
| ReplayError (i : nat) (e : exn)
| ReplayDone (success_count fail_count total : nat).

Definition level_of (r : log_record) : level :=
  match r with
  | IgnoredOwnMessage _ _ | ReceivedMessage _ _ _ _ | Replayed _ _ _ _ _ _ =>
      DEBUG
  | TimeoutDetected _ _ | ReplayDone _ _ _ => INFO
  | PublishFailed _ _ => WARNING
  | OnMessageError _ | ReplayError _ _ => ERROR
  end.

(** The mutable state of an [FMOEchoService] that the three methods touch:
    the buffer and its timestamp, and, for the two collaborators, the calls
    made so far to [mqtt_client.publish] and to the logger. *)
Record service : Type := mkService {
  message_buffer : list bytes;
  last_message_time : option Z;
  publish_calls : list (string * bytes);
  log : list log_record
}.

(** A method body: it may change the state and then return or raise; the
    changes made before an exception stay. *)
Definition M (A : Type) : Type := service -> result A * service.

Definition ret {A} (a : A) : M A := fun s => (Ok a, s).

Definition bind {A B} (m : M A) (k : A -> M B) : M B :=
  fun s =>
    match m s with
    | (Ok a, s') => k a s'
    | (Raise e, s') => (Raise e, s')
    end.

Definition lift {A} (r : result A) : M A := fun s => (r, s).

(** [try: body except Exception as e: handler]. *)
Definition try_except {A} (body : M A) (handler : exn -> M A) : M A :=
  fun s =>
    match body s with
    | (Ok a, s') => (Ok a, s')
    | (Raise e, s') => handler e s'
    end.

Definition get : M service := fun s => (Ok s, s).

Definition logger (r : log_record) : M unit :=
  fun s =>
    (Ok tt,
     mkService (message_buffer s) (last_message_time s) (publish_calls s)
               (log s ++ [r])).

Declare Scope service_scope.
Delimit Scope service_scope with svc.
Notation "x <- m ;; k" := (bind m (fun x => k))
  (at level 61, m at next level, right associativity) : service_scope.
Notation "m ;; k" := (bind m (fun _ => k))
  (at level 61, right associativity) : service_scope.

Definition MQTT_ERR_SUCCESS : Z := 0.

(** What an f-string shows for a value. *)
Definition format_value (v : pyval) : pystr :=
  match v with
  | PyStr s => s
  | PyInt z =>
      map (fun a => Z.of_N (N_of_ascii a))
          (list_ascii_of_string (NilZero.string_of_int (Z.to_int z)))
  end.

Section Service.

(** The transport: what [mqtt_client.publish(topic, payload)] answers (the
    [rc] of its result, or an exception), given the calls made before. *)
Variable broker : list (string * bytes) -> string -> bytes -> result Z.

Variable cfg : config.

Definition publish (topic : string) (payload : bytes) : M Z :=
  fun s =>
    (broker (publish_calls s) topic payload,
     mkService (message_buffer s) (last_message_time s)
               (publish_calls s ++ [(topic, payload)]) (log s)).

(** The [with self.buffer_lock] block of [_on_message]; [now] is what
    [time.time()] returns there. *)
Definition append_message (now : Z) (payload : bytes) : M unit :=
  fun s =>
    (Ok tt,
     mkService (message_buffer s ++ [payload]) (Some now)
               (publish_calls s) (log s)).

Definition _on_message (now : Z) (payload : bytes) : M unit :=
  try_except
    (header <- lift (from_bytes payload) ;;
     if pyval_eqb (uid header) (PyInt (echo_uid cfg)) then
       logger (IgnoredOwnMessage (uid header) (callsign header))
     else
       append_message now payload ;;
       s <- get ;;
       logger (ReceivedMessage (List.length (message_buffer s)) (uid header)
                               (callsign header) (List.length payload)))%svc
    (fun e => logger (OnMessageError e)).

(** One turn of the loop of [_replay_messages], from the counters before
    to the counters after. *)
Definition replay_one (total i : nat) (msg_data : bytes)
           (counts : nat * nat) : M (nat * nat) :=
  let '(success_count, fail_count) := counts in
  try_except
    (original_header <- lift (from_bytes msg_data) ;;
     let new_callsign :=
       echo_callsign_prefix cfg ++ format_value (callsign original_header) in
     modified_msg <-
       lift (replace_header_in_stream msg_data
               [("uid"%string, PyInt (echo_uid cfg));
                ("callsign"%string, PyStr new_callsign)]) ;;
     rc <- publish (topics_publish cfg) modified_msg ;;
     if rc =? MQTT_ERR_SUCCESS then
       logger (Replayed i total (uid original_header)
                        (callsign original_header) (echo_uid cfg)
                        new_callsign) ;;
       ret (S success_count, fail_count)
     else
       logger (PublishFailed i rc) ;;
       ret (success_count, S fail_count))%svc
    (fun e => (logger (ReplayError i e) ;;
               ret (success_count, S fail_count))%svc).

Fixpoint replay_loop (total i : nat) (items : list bytes)
         (counts : nat * nat) : M (nat * nat) :=
  match items with
  | [] => ret counts
  | msg_data :: rest =>
      (counts' <- replay_one total i msg_data counts ;;
       replay_loop total (S i) rest counts')%svc
  end.

Definition _replay_messages : M unit :=
  (s <- get ;;
   let total := List.length (message_buffer s) in
   counts <- replay_loop total 1 (message_buffer s) (O, O) ;;
   logger (ReplayDone (fst counts) (snd counts) total))%svc.

Definition reset_state : M unit :=
  fun s => (Ok tt, mkService [] None (publish_calls s) (log s)).

(** [_check_timeout()]; [now] is what [time.time()] returns. *)
Definition _check_timeout (now : Z) : M unit :=
  (s <- get ;;
   match last_message_time s with
   | None => ret tt
   | Some last =>
       let elapsed := now - last in
       if elapsed >? echo_timeout cfg then
         (match message_buffer s with
          | [] => ret tt
          | _ :: _ =>
              logger (TimeoutDetected elapsed
                                      (List.length (message_buffer s))) ;;
              _replay_messages
          end) ;;
         reset_state
       else ret tt
   end)%svc.

(** *** For the statements about a replay *)

(** The packet the loop body builds for [msg_data] and hands to
    [publish], or the exception that stops it before. *)
Definition outbound (msg_data : bytes) : result bytes :=
  (original_header <- from_bytes msg_data ;;
   replace_header_in_stream msg_data
     [("uid"%string, PyInt (echo_uid cfg));
      ("callsign"%string,
       PyStr (echo_callsign_prefix cfg
              ++ format_value (callsign original_header)))])%res.

(** The [publish] call made for one buffered packet, if any. *)
Definition attempted (msg_data : bytes) : list (string * bytes) :=
  match outbound msg_data with
  | Ok modified_msg => [(topics_publish cfg, modified_msg)]
  | Raise _ => []
  end.

(** The timestamp is present and more than the quiet period has elapsed
    since. *)
Definition timed_out (now : Z) (s : service) : bool :=
  match last_message_time s with
  | Some last => now - last >? echo_timeout cfg
  | None => false
  end.

End Service.

(** The position in the batch that a per-packet log record reports. *)
Definition outcome_index (r : log_record) : option nat :=
  match r with
  | Replayed i _ _ _ _ _ | PublishFailed i _ | ReplayError i _ => Some i
  | _ => None
  end.

(** A transport whose second [publish] call fails and whose other calls
    succeed. *)
Definition second_publish_fails
           (calls : list (string * bytes)) (topic : string)
           (payload : bytes) : result Z :=
  if (List.length calls =? 1)%nat then Ok 1 else Ok MQTT_ERR_SUCCESS.

End EchoService.

(** ** Test data *)

(** A header [{version=1, uid=441, callsign="BD8BOJ"}] followed by the four
    payload bytes [DE AD BE EF]. *)
Definition BD8BOJ : pystr := [66; 68; 56; 66; 79; 74].

Definition scenario_packet : bytes :=
  [x01; x00; x00; x00; x00; x00; xb9; x01; x00; x00;
   x42; x44; x38; x42; x4f; x4a; x00; x00; x00; x00; x00; x00;
   xde; xad; xbe; xef].

(** [RE>] and [RE>BD8BOJ]. *)
Definition RE_prefix : pystr := [82; 69; 62].
Definition RE_BD8BOJ : pystr := RE_prefix ++ BD8BOJ.

Definition scenario_config : EchoService.config :=
  EchoService.mkConfig 5 65535 RE_prefix "FMO/RAW".

(** The same packet as the relay republishes it: uid 65535 and callsign
    [RE>BD8BOJ]. *)
Definition echoed_packet : bytes :=
  [x01; x00; x00; x00; x00; x00; xff; xff; x00; x00;
   x52; x45; x3e; x42; x44; x38; x42; x4f; x4a; x00; x00; x00;
   xde; xad; xbe; xef].

(** [b"too short"]. *)
Definition short_payload : bytes :=
  [x74; x6f; x6f; x20; x73; x68; x6f; x72; x74].

(** A service that holds one packet, accepted at time 3. *)
Definition accumulating_service : EchoService.service :=
  EchoService.mkService [scenario_packet] (Some 3) [] [].

(** A service that holds three packets, the last accepted at time 0. *)
Definition three_queued : EchoService.service :=
  EchoService.mkService [scenario_packet; scenario_packet; scenario_packet]
                        (Some 0) [] [].

(** [FMORawHeader(version=3, uid=12345, callsign="ECHO")]. *)
Definition ECHO_header : Header.FMORawHeader :=
  Header.init (PyInt 3) (PyInt 12345) (PyStr [69; 67; 72; 79])
              (PyInt 0) (PyInt 0).

(** [FMORawHeader(version=1, uid=1, callsign="A\x00")]. *)
Definition A_NUL_header : Header.FMORawHeader :=
  Header.init (PyInt 1) (PyInt 1) (PyStr [65; 0]) (PyInt 0) (PyInt 0).

(** Eleven letters [A] followed by the euro sign U+20AC: 14 bytes of
    UTF-8. *)
Definition A11_euro : pystr := repeat 65 11 ++ [0x20AC].

(** [FMORawHeader(version=1, uid=100, callsign="AAAAAAAAAAA\u20ac")]. *)
Definition A11_euro_header : Header.FMORawHeader :=
  Header.init (PyInt 1) (PyInt 100) (PyStr A11_euro) (PyInt 0) (PyInt 0).


(** The updates of the replay: [uid=65535, callsign="RE>BD8BOJ"]. *)
Definition echo_updates : list (string * pyval) :=
  [("uid"%string, PyInt 65535); ("callsign"%string, PyStr RE_BD8BOJ)].

Unset Implicit Arguments.

From Stdlib Require Import Floats.PrimFloat.

(* ================================================================== *)
(** ** More of the header codec: what the statements below need *)

Module HeaderMore.
Import Header.

(** The value that the attribute [key] holds after the loop over
    [updates], given the value [old] it held before: the one of the last
    update that names it. *)
Definition updated (key : string) (updates : list (string * pyval))
           (old : pyval) : pyval :=
  match lookup key (rev updates) with
  | Some v => v
  | None => old
  end.

(** The 22 bytes of a header: the four integers, little-endian, and the
    callsign field made of the first 12 bytes of [enc] and zero bytes. *)
Definition layout (v p1 u p2 : Z) (enc : bytes) : bytes :=
  le_bytes 4 v ++ le_bytes 2 p1 ++ le_bytes 2 u ++ le_bytes 2 p2
  ++ (firstn 12 enc ++ repeat x00 (12 - List.length (firstn 12 enc))).

End HeaderMore.

(* ================================================================== *)
(** ** More of the echo service: deliveries and polls in sequence *)

Module ServiceRun.
Import Header.
Import EchoService.

(** The state [__init__] leaves: an empty buffer and no timestamp. *)
Definition initial_service : service := mkService [] None [] [].

(** What happens to a service between start and stop: the MQTT thread
    delivers a message to [_on_message], or the main loop of [run] calls
    [_check_timeout]; [now] is the clock at that moment. The buffer lock
    makes the two exclude each other. *)
Inductive event : Type :=
| Deliver (now : Z) (payload : bytes)
| Poll (now : Z).

Section Run.

Variable broker : list (string * bytes) -> string -> bytes -> result Z.
Variable cfg : config.

Definition step (s : service) (e : event) : service :=
  match e with
  | Deliver now payload => snd (_on_message cfg now payload s)
  | Poll now => snd (_check_timeout broker cfg now s)
  end.

Definition run_events (events : list event) (s : service) : service :=
  fold_left step events s.

(** The test of [_on_message] on a payload: it parses and does not carry
    the relay's uid. *)
Definition accepted (payload : bytes) : bool :=
  match from_bytes payload with
  | Ok header => negb (pyval_eqb (uid header) (PyInt (echo_uid cfg)))
  | Raise _ => false
  end.

(** The payload parses and carries the relay's uid: the mark of a packet
    that the relay has published. *)
Definition marked (payload : bytes) : bool :=
  match from_bytes payload with
  | Ok header => pyval_eqb (uid header) (PyInt (echo_uid cfg))
  | Raise _ => false
  end.

(** Idle (no packet, no timestamp) or accumulating (both). *)
Definition coherent (s : service) : bool :=
  match message_buffer s, last_message_time s with
  | [], None => true
  | _ :: _, Some _ => true
  | _, _ => false
  end.

(** What holds of a service in every state it can reach: it is coherent,
    it buffers only packets that passed the test of [_on_message], and
    everything it has published went to the configured topic and carries
    its mark. *)
Definition reachable_ok (s : service) : Prop :=
  coherent s = true /\
  Forall (fun p => accepted p = true) (message_buffer s) /\
  Forall (fun call => fst call = topics_publish cfg /\
                      marked (snd call) = true)
         (publish_calls s).

(** The payloads that a sequence of events delivers, in order. *)
Definition deliveries (events : list event) : list bytes :=
  flat_map (fun e => match e with
                     | Deliver _ payload => [payload]
                     | Poll _ => []
                     end) events.

(** The relay's uid fits the header field and its prefix is a text: what
    [to_bytes] needs of the two values the replay writes. *)
Definition config_ok : bool :=
  fits UID_SIZE (PyInt (echo_uid cfg))
  && forallb is_scalar (echo_callsign_prefix cfg).

End Run.

(** A transport that accepts every message. *)
Definition always_accepts (calls : list (string * bytes)) (topic : string)
           (payload : bytes) : result Z :=
  Ok MQTT_ERR_SUCCESS.

(** A configuration that [validate_config] would refuse: the uid 70000
    does not fit 16 bits. *)
Definition unfit_config : config :=
  mkConfig 5 70000 [82; 69; 62] "FMO/RAW".

End ServiceRun.

(* ================================================================== *)
(** ** [config.py] *)

Module Config.

Set Warnings "-register-all".


(** The values a configuration holds: what [yaml.safe_load] builds and
    what [DEFAULT_CONFIG] is made of: [None], [bool], [int], [float],
    [str], [list] and [dict]. The keys of a dictionary are strings, in
    insertion order. *)
Inductive pyobj : Type :=
| PNone
| PBool (b : bool)
| PInt (z : Z)
| PFloat (f : float)
| PStr (s : pystr)
| PList (items : list pyobj)
| PDict (items : list (string * pyobj)).

Definition dict : Type := list (string * pyobj).

(** [d.get(key)] as an option, [key in d], and [d[key] = value]: a key
    that is present keeps its place, a new one goes last. *)
Fixpoint dict_get (key : string) (d : dict) : option pyobj :=
  match d with
  | [] => None
  | (k, v) :: d' => if String.eqb key k then Some v else dict_get key d'
  end.

Definition dict_has (key : string) (d : dict) : bool :=
  match dict_get key d with Some _ => true | None => false end.

Fixpoint dict_set (key : string) (value : pyobj) (d : dict) : dict :=
  match d with
  | [] => [(key, value)]
  | (k, v) :: d' =>
      if String.eqb key k then (k, value) :: d'
      else (k, v) :: dict_set key value d'
  end.

(** One turn of the loop of [deep_merge]; [merged] is what the recursive
    call returns for two dictionaries. *)
Definition merge_entry (merged : dict -> pyobj -> dict) (result : dict)
           (key : string) (value : pyobj) : dict :=
  match dict_get key result, value with
  | Some (PDict sub), PDict _ => dict_set key (PDict (merged sub value)) result
  | _, _ => dict_set key value result
  end.

(** [deep_merge(base, override)] with [override] given as the dictionary
    object [PDict items]. *)
Fixpoint deep_merge_obj (base : dict) (override : pyobj) {struct override}
  : dict :=
  match override with
  | PDict items =>
      (fix loop (items : dict) (result : dict) {struct items} : dict :=
         match items with
         | [] => result
         | (key, value) :: rest =>
             loop rest (merge_entry deep_merge_obj result key value)
         end) items base
  | _ => base
  end.

Definition deep_merge (base override : dict) : dict :=
  deep_merge_obj base (PDict override).

(** What one turn of the loop of [deep_merge] stores under a key, given
    what the result held there before. *)
Definition merged_value (old : option pyobj) (value : pyobj) : pyobj :=
  match old, value with
  | Some (PDict sub), PDict o => PDict (deep_merge sub o)
  | _, _ => value
  end.

(** The value under a path of keys, going down through dictionaries. *)
Fixpoint get_path (path : list string) (d : dict) : option pyobj :=
  match path with
  | [] => None
  | key :: path' =>
      match dict_get key d with
      | None => None
      | Some v =>
          match path' with
          | [] => Some v
          | _ :: _ =>
              match v with
              | PDict sub => get_path path' sub
              | _ => None
              end
          end
      end
  end.

(** [d] says nothing under [path]: going down through its dictionaries, a
    key of the path is missing. *)
Fixpoint silent_on (path : list string) (d : dict) : bool :=
  match path with
  | [] => false
  | key :: path' =>
      match dict_get key d with
      | None => true
      | Some (PDict sub) => silent_on path' sub
      | Some _ => false
      end
  end.

Definition is_dict (v : pyobj) : bool :=
  match v with PDict _ => true | _ => false end.

(** No key occurs twice in a dictionary, at any depth: what every Python
    dictionary satisfies. *)
Fixpoint keys_unique (v : pyobj) : Prop :=
  match v with
  | PDict items =>
      NoDup (map fst items) /\
      (fix all (l : dict) : Prop :=
         match l with
         | [] => True
         | (_, x) :: l' => keys_unique x /\ all l'
         end) items
  | _ => True
  end.

(** The number of nodes of an object. *)
Fixpoint size (v : pyobj) : nat :=
  match v with
  | PDict items =>
      S ((fix sum (l : dict) : nat :=
            match l with
            | [] => O
            | (_, x) :: l' => (size x + sum l')%nat
            end) items)
  | PList items =>
      S ((fix sum (l : list pyobj) : nat :=
            match l with
            | [] => O
            | x :: l' => (size x + sum l')%nat
            end) items)
  | _ => 1%nat
  end.

(** A text given by its ASCII characters. *)
Definition text (s : string) : pystr :=
  map (fun a => Z.of_N (N_of_ascii a)) (list_ascii_of_string s).

Definition DEFAULT_CONFIG : dict :=
  [("mqtt"%string,
    PDict [("broker"%string, PStr (text "localhost"));
           ("port"%string, PInt 1883);
           ("username"%string, PStr []);
           ("password"%string, PStr []);
           ("client_id_prefix"%string, PStr (text "fmo_repeater"));
           ("keepalive"%string, PInt 60)]);
   ("topics"%string,
    PDict [("subscribe"%string, PStr (text "FMO/RAW"));
           ("publish"%string, PStr (text "FMO/RAW"))]);
   ("echo"%string,
    PDict [("timeout"%string, PFloat 5%float);
           ("uid"%string, PInt 65535);
           ("callsign_prefix"%string, PStr (text "RE>"))]);
   ("logging"%string,
    PDict [("level"%string, PStr (text "INFO"));
           ("console"%string, PBool true);
           ("file"%string, PStr (text "logs/fmo_repeater.log"));
           ("max_bytes"%string, PInt 10485760);
           ("backup_count"%string, PInt 5)]);
   ("daemon"%string,
    PDict [("enabled"%string, PBool false);
           ("pid_file"%string, PStr (text "/var/run/fmo_repeater.pid"))])].

(** Truth value of an object ([not x] is its negation). *)
Definition truthy (v : pyobj) : bool :=
  match v with
  | PNone => false
  | PBool b => b
  | PInt z => negb (z =? 0)
  | PFloat f => negb (PrimFloat.eqb f 0%float)
  | PStr s => match s with [] => false | _ :: _ => true end
  | PList l => match l with [] => false | _ :: _ => true end
  | PDict d => match d with [] => false | _ :: _ => true end
  end.

(** [isinstance(v, int)], which holds of a [bool] too, and the integer. *)
Definition as_int (v : pyobj) : option Z :=
  match v with
  | PInt z => Some z
  | PBool b => Some (Z.b2z b)
  | _ => None
  end.

(** [not isinstance(v, (int, float)) or v <= 0]. *)
Definition not_positive_number (v : pyobj) : bool :=
  match v with
  | PInt z => z <=? 0
  | PBool b => Z.b2z b <=? 0
  | PFloat f => PrimFloat.leb f 0%float
  | _ => true
  end.

Definition is_str (v : pyobj) : bool :=
  match v with PStr _ => true | _ => false end.

(** [section.get(key)]: only a dictionary has [get]. *)
Definition get (section : pyobj) (key : string) : result pyobj :=
  match section with
  | PDict d =>
      Ok (match dict_get key d with Some v => v | None => PNone end)
  | _ => Raise (AttributeError "get")
  end.

(** [config[key]] for a key that is present. *)
Definition item (config : dict) (key : string) : pyobj :=
  match dict_get key config with Some v => v | None => PNone end.

Definition required_sections : list string :=
  ["mqtt"; "topics"; "echo"; "logging"]%string.

Definition valid_levels : list pystr :=
  [text "DEBUG"; text "INFO"; text "WARNING"; text "ERROR"; text "CRITICAL"].

(** [v in valid_levels]. *)
Definition in_valid_levels (v : pyobj) : bool :=
  match v with
  | PStr s => existsb (list_eqb Z.eqb s) valid_levels
  | _ => false
  end.

(** [not isinstance(v, int) or not (lo <= v <= hi)]. *)
Definition not_int_between (lo hi : Z) (v : pyobj) : bool :=
  match as_int v with
  | Some z => negb ((lo <=? z) && (z <=? hi))
  | None => true
  end.

(** [validate_config(config)]. *)
Definition validate_config (config : dict) : result bool :=
  if negb (forallb (fun section => dict_has section config)
                   required_sections)
  then Raise ValueError
  else
    (let mqtt := item config "mqtt" in
     broker <- get mqtt "broker" ;;
     if negb (truthy broker) then Raise ValueError else
     port <- get mqtt "port" ;;
     if not_int_between 1 65535 port then Raise ValueError else
     let topics := item config "topics" in
     subscribe <- get topics "subscribe" ;;
     if negb (truthy subscribe) then Raise ValueError else
     publish <- get topics "publish" ;;
     if negb (truthy publish) then Raise ValueError else
     let echo := item config "echo" in
     timeout <- get echo "timeout" ;;
     if not_positive_number timeout then Raise ValueError else
     uid <- get echo "uid" ;;
     if not_int_between 0 65535 uid then Raise ValueError else
     callsign_prefix <- get echo "callsign_prefix" ;;
     if negb (is_str callsign_prefix) then Raise ValueError else
     let logging_config := item config "logging" in
     level <- get logging_config "level" ;;
     if negb (in_valid_levels level) then Raise ValueError else
     Ok true)%res.

End Config.

Import Header.
Import EchoService.

(* ================================================================== *)
(** * Proofs *)

(** ** Bytes *)
Lemma byte_val_range (b : byte) : 0 <= byte_val b < 256.
Proof.
  unfold byte_val. pose proof (Byte.to_N_bounded b). lia.
Qed.

Lemma byte_val_of_Z (z : Z) : byte_val (byte_of_Z z) = z mod 256.
Proof.
  unfold byte_val, byte_of_Z.
  assert (Hr : 0 <= z mod 256 < 256) by (apply Z.mod_pos_bound; lia).
  destruct (Byte.of_N (Z.to_N (z mod 256))) as [b|] eqn:E.
  - apply Byte.to_of_N in E. rewrite E. lia.
  - apply Byte.of_N_None_iff in E. lia.
Qed.

Lemma byte_val_of_Z_small (z : Z) : 0 <= z < 256 -> byte_val (byte_of_Z z) = z.
Proof.
  intros H. rewrite byte_val_of_Z. apply Z.mod_small; exact H.
Qed.

Lemma byte_of_Z_val (b : byte) : byte_of_Z (byte_val b) = b.
Proof.
  unfold byte_of_Z, byte_val.
  pose proof (Byte.to_N_bounded b) as Hb.
  rewrite Z.mod_small by lia.
  rewrite N2Z.id, Byte.of_to_N. reflexivity.
Qed.


(** ** UTF-8 *)

Ltac zdiv := Z.div_mod_to_equations; lia.

Ltac break_if :=
  match goal with
  | |- context [if ?c then _ else _] => destruct c eqn:?
  end.

Lemma is_scalar_true (c : Z) :
  is_scalar c = true <-> (0 <= c < 0xD800 \/ 0xDFFF < c <= 0x10FFFF).
Proof. unfold is_scalar. lia. Qed.

Lemma byte_of_Z_eq (z : Z) (b : byte) : z = byte_val b -> byte_of_Z z = b.
Proof. intros ->. apply byte_of_Z_val. Qed.


Lemma encode_char_1 (c : Z) :
  0 <= c < 0x80 -> utf8_encode_char c = Some [byte_of_Z c].
Proof.
  intros H. unfold utf8_encode_char.
  replace (is_scalar c) with true by (symmetry; apply is_scalar_true; lia).
  replace (c <? 0x80) with true by lia. reflexivity.
Qed.

Lemma encode_char_2 (c : Z) :
  0x80 <= c < 0x800 ->
  utf8_encode_char c =
  Some [byte_of_Z (0xC0 + c / 64); byte_of_Z (0x80 + c mod 64)].
Proof.
  intros H. unfold utf8_encode_char.
  replace (is_scalar c) with true by (symmetry; apply is_scalar_true; lia).
  replace (c <? 0x80) with false by lia.
  replace (c <? 0x800) with true by lia. reflexivity.
Qed.

Lemma encode_char_3 (c : Z) :
  0x800 <= c < 0xD800 \/ 0xDFFF < c < 0x10000 ->
  utf8_encode_char c =
  Some [byte_of_Z (0xE0 + c / 4096); byte_of_Z (0x80 + (c / 64) mod 64);
        byte_of_Z (0x80 + c mod 64)].
Proof.
  intros H. unfold utf8_encode_char.
  replace (is_scalar c) with true by (symmetry; apply is_scalar_true; lia).
  replace (c <? 0x80) with false by lia.
  replace (c <? 0x800) with false by lia.
  replace (c <? 0x10000) with true by lia. reflexivity.
Qed.

Lemma encode_char_4 (c : Z) :
  0x10000 <= c <= 0x10FFFF ->
  utf8_encode_char c =
  Some [byte_of_Z (0xF0 + c / 262144); byte_of_Z (0x80 + (c / 4096) mod 64);
        byte_of_Z (0x80 + (c / 64) mod 64); byte_of_Z (0x80 + c mod 64)].
Proof.
  intros H. unfold utf8_encode_char.
  replace (is_scalar c) with true by (symmetry; apply is_scalar_true; lia).
  replace (c <? 0x80) with false by lia.
  replace (c <? 0x800) with false by lia.
  replace (c <? 0x10000) with false by lia. reflexivity.
Qed.

Lemma encode_char_None (c : Z) :
  utf8_encode_char c = None <-> is_scalar c = false.
Proof.
  unfold utf8_encode_char. destruct (is_scalar c); cbn [negb].
  - repeat break_if; split; discriminate.
  - split; reflexivity.
Qed.

Ltac bytes_eq := repeat f_equal; apply byte_of_Z_eq; unfold cont_bits; zdiv.

(** One step of the decoder: either it reads the UTF-8 form of a scalar
    value, or it emits U+FFFD and goes on with a strictly shorter rest. *)
Lemma utf8_decode_step (b : byte) (r : bytes) :
  (exists c enc rest,
      utf8_encode_char c = Some enc /\ b :: r = enc ++ rest /\
      utf8_decode (b :: r) = c :: utf8_decode rest /\
      (List.length rest <= List.length r)%nat)
  \/ (exists rest,
      utf8_decode (b :: r) = REPLACEMENT :: utf8_decode rest /\
      (List.length rest <= List.length r)%nat).
Proof.
  pose proof (byte_val_range b) as Hb.
  cbn [utf8_decode]. cbv zeta.
  destruct (byte_val b <? 0x80) eqn:E1.
  { left. exists (byte_val b), [b], r. repeat split; auto.
    rewrite encode_char_1 by lia. bytes_eq. }
  destruct (byte_val b <? 0xC2) eqn:E2.
  { right. exists r. auto. }
  destruct (byte_val b <? 0xE0) eqn:E3.
  { destruct r as [|b2 r2].
    { right. exists []. auto. }
    pose proof (byte_val_range b2) as Hb2.
    destruct (is_cont b2) eqn:C2; cbn [negb].
    - left. unfold is_cont in C2.
      exists ((byte_val b - 0xC0) * 64 + cont_bits b2), [b; b2], r2.
      repeat split; cbn [List.length]; try lia.
      unfold cont_bits. rewrite encode_char_2 by lia. bytes_eq.
    - right. exists (b2 :: r2). auto. }
  destruct (byte_val b <? 0xF0) eqn:E4.
  { destruct r as [|b2 r2].
    { right. exists []. auto. }
    pose proof (byte_val_range b2) as Hb2.
    destruct (negb (is_cont b2)
              || (if byte_val b2 <? 0xA0 then byte_val b =? 0xE0
                  else byte_val b =? 0xED)) eqn:C2.
    { right. exists (b2 :: r2). auto. }
    destruct r2 as [|b3 r3].
    { right. exists []. split; auto. cbn [List.length]. lia. }
    pose proof (byte_val_range b3) as Hb3.
    destruct (is_cont b3) eqn:C3; cbn [negb].
    - left. apply orb_false_iff in C2 as [C2 C2'].
      apply negb_false_iff in C2. unfold is_cont in C2, C3.
      destruct (byte_val b2 <? 0xA0) eqn:E2'.
      all: exists ((byte_val b - 0xE0) * 4096 + cont_bits b2 * 64 + cont_bits b3),
        [b; b2; b3], r3.
      all: repeat split; cbn [List.length]; try lia.
      all: unfold cont_bits; rewrite encode_char_3 by lia; bytes_eq.
    - right. exists (b3 :: r3). split; auto. cbn [List.length]. lia. }
  destruct (byte_val b <? 0xF5) eqn:E5.
  { destruct r as [|b2 r2].
    { right. exists []. auto. }
    pose proof (byte_val_range b2) as Hb2.
    destruct (negb (is_cont b2)
              || (if byte_val b2 <? 0x90 then byte_val b =? 0xF0
                  else byte_val b =? 0xF4)) eqn:C2.
    { right. exists (b2 :: r2). auto. }
    destruct r2 as [|b3 r3].
    { right. exists []. split; auto. cbn [List.length]. lia. }
    pose proof (byte_val_range b3) as Hb3.
    destruct (is_cont b3) eqn:C3; cbn [negb].
    2:{ right. exists (b3 :: r3). split; auto. cbn [List.length]. lia. }
    destruct r3 as [|b4 r4].
    { right. exists []. split; auto. cbn [List.length]. lia. }
    pose proof (byte_val_range b4) as Hb4.
    destruct (is_cont b4) eqn:C4; cbn [negb].
    - left. apply orb_false_iff in C2 as [C2 C2'].
      apply negb_false_iff in C2. unfold is_cont in C2, C3, C4.
      destruct (byte_val b2 <? 0x90) eqn:E2'.
      all: exists ((byte_val b - 0xF0) * 262144 + cont_bits b2 * 4096
              + cont_bits b3 * 64 + cont_bits b4), [b; b2; b3; b4], r4.
      all: repeat split; cbn [List.length]; try lia.
      all: unfold cont_bits; rewrite encode_char_4 by lia; bytes_eq.
    - right. exists (b4 :: r4). split; auto. cbn [List.length]. lia. }
  right. exists r. auto.
Qed.

Lemma some_inj {A} (a b : A) : Some a = Some b -> a = b.
Proof. congruence. Qed.

Ltac decide_tests :=
  repeat match goal with
  | |- context [?a <? ?b] =>
      first [ replace (a <? b) with true by zdiv
            | replace (a <? b) with false by zdiv ]
  | |- context [?a <=? ?b] =>
      first [ replace (a <=? b) with true by zdiv
            | replace (a <=? b) with false by zdiv ]
  | |- context [?a =? ?b] =>
      first [ replace (a =? b) with true by zdiv
            | replace (a =? b) with false by zdiv ]
  end.

Lemma utf8_decode_app_char (c : Z) (enc rest : bytes) :
  utf8_encode_char c = Some enc ->
  utf8_decode (enc ++ rest) = c :: utf8_decode rest.
Proof.
  intros H.
  destruct (is_scalar c) eqn:Hs.
  2:{ apply encode_char_None in Hs. congruence. }
  apply is_scalar_true in Hs.
  assert (Hc : 0 <= c < 0x80 \/ 0x80 <= c < 0x800 \/
               (0x800 <= c < 0xD800 \/ 0xDFFF < c < 0x10000) \/
               0x10000 <= c <= 0x10FFFF) by lia.
  destruct Hc as [Hc|[Hc|[Hc|Hc]]].
  - rewrite encode_char_1 in H by lia. apply some_inj in H; subst enc.
    cbn [app utf8_decode]. cbv zeta.
    rewrite !byte_val_of_Z_small by zdiv. decide_tests. reflexivity.
  - rewrite encode_char_2 in H by lia. apply some_inj in H; subst enc.
    cbn [app utf8_decode]. cbv zeta. unfold is_cont, cont_bits.
    rewrite !byte_val_of_Z_small by zdiv. decide_tests. cbn [negb andb].
    f_equal. zdiv.
  - rewrite encode_char_3 in H by lia. apply some_inj in H; subst enc.
    cbn [app utf8_decode]. cbv zeta. unfold is_cont, cont_bits.
    rewrite !byte_val_of_Z_small by zdiv.
    destruct (128 + (c / 64) mod 64 <? 160) eqn:E.
    all: decide_tests; cbn [negb andb orb]; f_equal; zdiv.
  - rewrite encode_char_4 in H by lia. apply some_inj in H; subst enc.
    cbn [app utf8_decode]. cbv zeta. unfold is_cont, cont_bits.
    rewrite !byte_val_of_Z_small by zdiv.
    destruct (128 + (c / 4096) mod 64 <? 144) eqn:E.
    all: decide_tests; cbn [negb andb orb]; f_equal; zdiv.
Qed.

Lemma utf8_encode_cons (c : Z) (s : pystr) (bs : bytes) :
  utf8_encode (c :: s) = Ok bs ->
  exists enc r, utf8_encode_char c = Some enc /\ utf8_encode s = Ok r /\
                bs = enc ++ r.
Proof.
  cbn [utf8_encode]. destruct (utf8_encode_char c) as [enc|]; [|discriminate].
  destruct (utf8_encode s) as [r|e]; cbn [rbind]; [|discriminate].
  intros H. exists enc, r. repeat split. congruence.
Qed.

Lemma utf8_decode_encode (s : pystr) :
  forall bs, utf8_encode s = Ok bs -> utf8_decode bs = s.
Proof.
  induction s as [|c s IH]; intros bs H.
  - cbn in H. injection H as <-. reflexivity.
  - apply utf8_encode_cons in H as (enc & r & Hc & Hr & ->).
    rewrite (utf8_decode_app_char c enc r Hc). f_equal. apply IH, Hr.
Qed.

Lemma encode_char_scalar (c : Z) (enc : bytes) :
  utf8_encode_char c = Some enc -> is_scalar c = true.
Proof.
  intros H. destruct (is_scalar c) eqn:E; [reflexivity|].
  apply encode_char_None in E. congruence.
Qed.

Lemma bytes_length_ind (P : bytes -> Prop) :
  (forall bs, (forall bs', (List.length bs' < List.length bs)%nat -> P bs') ->
              P bs) ->
  forall bs, P bs.
Proof.
  intros H bs.
  assert (G : forall n bs, (List.length bs < n)%nat -> P bs).
  { induction n as [|n IH]; intros l Hl; [lia|].
    apply H. intros l' Hl'. apply IH. lia. }
  apply (G (S (List.length bs))). lia.
Qed.

Lemma utf8_decode_scalar (bs : bytes) :
  Forall (fun c => is_scalar c = true) (utf8_decode bs).
Proof.
  induction bs as [bs IH] using bytes_length_ind.
  destruct bs as [|b r]; [constructor|].
  destruct (utf8_decode_step b r)
    as [(c & enc & rest & Hc & _ & -> & Hl)|(rest & -> & Hl)].
  - constructor; [eapply encode_char_scalar; eauto|].
    apply IH. cbn [List.length]. lia.
  - constructor; [reflexivity|]. apply IH. cbn [List.length]. lia.
Qed.

Lemma utf8_encode_app_char (c : Z) (enc : bytes) (s : pystr) (r : bytes) :
  utf8_encode_char c = Some enc -> utf8_encode s = Ok r ->
  utf8_encode (c :: s) = Ok (enc ++ r).
Proof. intros Hc Hs. cbn [utf8_encode]. rewrite Hc, Hs. reflexivity. Qed.


(** *** [rstrip] *)

Lemma rstrip_zeros_repeat (k : nat) : rstrip_zeros (repeat x00 k) = [].
Proof.
  induction k as [|k IH]; [reflexivity|].
  cbn [repeat rstrip_zeros]. rewrite IH. reflexivity.
Qed.

Lemma rstrip_zeros_app_zeros (bs : bytes) (k : nat) :
  rstrip_zeros (bs ++ repeat x00 k) = rstrip_zeros bs.
Proof.
  induction bs as [|b t IH]; cbn [app].
  - apply rstrip_zeros_repeat.
  - cbn [rstrip_zeros]. rewrite IH. reflexivity.
Qed.

Lemma rstrip_zeros_id (bs : bytes) :
  last bs x01 <> x00 -> rstrip_zeros bs = bs.
Proof.
  induction bs as [|b t IH]; [reflexivity|].
  intros H. cbn [rstrip_zeros].
  destruct t as [|b' t'].
  - cbn [rstrip_zeros]. cbn in H. unfold is_zero_byte.
    destruct (Byte.eqb b x00) eqn:E; [|reflexivity].
    apply Byte.byte_dec_bl in E. contradiction.
  - rewrite IH by exact H. reflexivity.
Qed.

(** What [rstrip] returns: the input without a block of zero bytes at its
    end, and not ending in a zero byte itself. *)
Lemma rstrip_zeros_spec (bs : bytes) :
  (exists k, bs = rstrip_zeros bs ++ repeat x00 k) /\
  last (rstrip_zeros bs) x01 <> x00.
Proof.
  induction bs as [|b t [[k Hk] Hl]].
  - split; [exists O; reflexivity|discriminate].
  - cbn [rstrip_zeros]. destruct (rstrip_zeros t) as [|b' t'] eqn:E.
    + unfold is_zero_byte. destruct (Byte.eqb b x00) eqn:Eb.
      * apply Byte.byte_dec_bl in Eb. subst b. split; [|discriminate].
        exists (S k). cbn [app repeat]. f_equal. exact Hk.
      * split; [exists k; cbn [app]; f_equal; exact Hk|].
        cbn [last]. intros ->. discriminate.
    + split; [exists k; cbn [app]; f_equal; exact Hk|].
      exact Hl.
Qed.

Lemma last_app_nonempty {A} (l1 l2 : list A) (d : A) :
  l2 <> [] -> last (l1 ++ l2) d = last l2 d.
Proof.
  intros H. induction l1 as [|a l1 IH]; [reflexivity|].
  cbn [app]. destruct (l1 ++ l2) eqn:E.
  - destruct l1; [cbn in E; contradiction|discriminate].
  - change (last (a :: a0 :: l) d) with (last (a0 :: l) d).
    exact IH.
Qed.

(** ** The header codec *)

(** *** Little-endian integers *)

Lemma le_bytes_length (n : nat) : forall z, List.length (le_bytes n z) = n.
Proof.
  induction n as [|n IH]; intros z; [reflexivity|].
  cbn [le_bytes List.length]. rewrite IH. reflexivity.
Qed.

Lemma le_value_le_bytes (n : nat) :
  forall z, 0 <= z < 2 ^ (8 * Z.of_nat n) -> le_value (le_bytes n z) = z.
Proof.
  induction n as [|n IH]; intros z Hz.
  - cbn in Hz. cbn. lia.
  - cbn [le_bytes le_value]. rewrite byte_val_of_Z.
    replace (8 * Z.of_nat (S n)) with (8 + 8 * Z.of_nat n) in Hz by lia.
    rewrite Z.pow_add_r in Hz by lia. change (2 ^ 8) with 256 in Hz.
    rewrite IH by zdiv. zdiv.
Qed.

Lemma le_value_range (bs : bytes) :
  0 <= le_value bs < 2 ^ (8 * Z.of_nat (List.length bs)).
Proof.
  induction bs as [|b t IH].
  - cbn. lia.
  - cbn [le_value List.length]. pose proof (byte_val_range b).
    replace (8 * Z.of_nat (S (List.length t)))
      with (8 + 8 * Z.of_nat (List.length t)) by lia.
    rewrite Z.pow_add_r by lia. change (2 ^ 8) with 256. nia.
Qed.

(** *** [struct] *)

Lemma pack_uint_length (width : nat) (v : pyval) (bs : bytes) :
  pack_uint width v = Ok bs -> List.length bs = width.
Proof.
  destruct v as [z|s]; cbn [pack_uint]; [|discriminate].
  destruct (_ && _); [|discriminate].
  intros H. injection H as <-. apply le_bytes_length.
Qed.

Lemma pack_12s_length (bs : bytes) : List.length (pack_12s bs) = 12%nat.
Proof.
  unfold pack_12s. rewrite length_firstn, length_app, repeat_length. lia.
Qed.

Lemma pack_12s_exact (bs : bytes) :
  List.length bs = 12%nat -> pack_12s bs = bs.
Proof.
  intros H. unfold pack_12s. rewrite firstn_app, H, Nat.sub_diag.
  rewrite firstn_O, app_nil_r. apply firstn_all2. lia.
Qed.

Lemma struct_pack_length (v p1 u p2 : pyval) (cs bs : bytes) :
  struct_pack v p1 u p2 cs = Ok bs -> List.length bs = 22%nat.
Proof.
  unfold struct_pack.
  destruct (pack_uint 4 v) as [a|] eqn:Ea; cbn [rbind]; [|discriminate].
  destruct (pack_uint 2 p1) as [b|] eqn:Eb; cbn [rbind]; [|discriminate].
  destruct (pack_uint 2 u) as [c|] eqn:Ec; cbn [rbind]; [|discriminate].
  destruct (pack_uint 2 p2) as [d|] eqn:Ed; cbn [rbind]; [|discriminate].
  intros H. injection H as <-.
  rewrite !length_app, pack_12s_length.
  apply pack_uint_length in Ea, Eb, Ec, Ed. lia.
Qed.

Lemma struct_unpack_app (a b c d e : bytes) :
  List.length a = 4%nat -> List.length b = 2%nat -> List.length c = 2%nat ->
  List.length d = 2%nat -> List.length e = 12%nat ->
  struct_unpack (a ++ b ++ c ++ d ++ e)
  = (le_value a, le_value b, le_value c, le_value d, e).
Proof.
  intros Ha Hb Hc Hd He.
  destruct a as [|a0 [|a1 [|a2 [|a3 [|]]]]]; try discriminate.
  destruct b as [|b0 [|b1 [|]]]; try discriminate.
  destruct c as [|c0 [|c1 [|]]]; try discriminate.
  destruct d as [|d0 [|d1 [|]]]; try discriminate.
  do 12 (destruct e as [|? e]; [discriminate|]).
  destruct e; [reflexivity|discriminate].
Qed.

(** *** [to_bytes] and [from_bytes] *)

(** Within the sizes a [bytes] object can have, [ljust] pads. *)
Lemma ljust_pads (n : Z) (bs : bytes) :
  - PY_SSIZE_T_MAX - 1 <= n <= PY_SSIZE_T_MAX - PyBytesObject_SIZE ->
  ljust n bs = Ok (ljust_zeros n bs).
Proof.
  intros H. unfold ljust.
  assert (P : 0 <= PyBytesObject_SIZE) by (unfold PyBytesObject_SIZE; lia).
  replace (n <? - PY_SSIZE_T_MAX - 1) with false by (symmetry; lia).
  replace (PY_SSIZE_T_MAX <? n) with false by (symmetry; lia).
  replace (PY_SSIZE_T_MAX - PyBytesObject_SIZE <? n) with false
    by (symmetry; lia).
  rewrite andb_false_r. reflexivity.
Qed.

Lemma ljust_CALLSIGN_SIZE (bs : bytes) :
  ljust (Z.of_nat CALLSIGN_SIZE) bs
  = Ok (ljust_zeros (Z.of_nat CALLSIGN_SIZE) bs).
Proof. apply ljust_pads. vm_compute. split; discriminate. Qed.

Lemma to_bytes_length (h : FMORawHeader) (bs : bytes) :
  to_bytes h = Ok bs -> List.length bs = HEADER_SIZE.
Proof.
  unfold to_bytes.
  destruct (encode_callsign (callsign h)) as [enc|]; cbn [rbind];
    [|discriminate].
  destruct (self_CALLSIGN_SIZE h) as [size|]; [|discriminate].
  destruct (ljust size (slice_to size enc)) as [padded|]; cbn [rbind];
    [|discriminate].
  apply struct_pack_length.
Qed.

Lemma from_bytes_short (data : bytes) :
  (List.length data < HEADER_SIZE)%nat -> from_bytes data = Raise ValueError.
Proof.
  intros H. unfold from_bytes.
  replace (List.length data <? HEADER_SIZE)%nat with true
    by (symmetry; apply Nat.ltb_lt; exact H).
  reflexivity.
Qed.

Lemma from_bytes_long (data : bytes) :
  (HEADER_SIZE <= List.length data)%nat ->
  from_bytes data =
  Ok (init (PyInt (le_value (slice 0 4 data)))
           (PyInt (le_value (slice 6 8 data)))
           (PyStr (utf8_decode (rstrip_zeros (slice 10 22 data))))
           (PyInt (le_value (slice 4 6 data)))
           (PyInt (le_value (slice 8 10 data)))).
Proof.
  intros H. unfold from_bytes.
  replace (List.length data <? HEADER_SIZE)%nat with false
    by (symmetry; apply Nat.ltb_ge; exact H).
  unfold struct_unpack.
  assert (S : forall a b, (b <= 22)%nat ->
            slice a b (slice 0 HEADER_SIZE data) = slice a b data).
  { intros a b Hb. unfold slice. rewrite !Nat.sub_0_r. cbn [skipn].
    rewrite skipn_firstn_comm, firstn_firstn.
    f_equal. change HEADER_SIZE with 22%nat. lia. }
  rewrite !S by lia. reflexivity.
Qed.

Lemma from_bytes_Ok_length (data : bytes) (h : FMORawHeader) :
  from_bytes data = Ok h -> (HEADER_SIZE <= List.length data)%nat.
Proof.
  unfold from_bytes.
  destruct (List.length data <? HEADER_SIZE)%nat eqn:E; [discriminate|].
  intros _. apply Nat.ltb_ge. exact E.
Qed.

Lemma slice_length (a b : nat) (bs : bytes) :
  (a <= b <= List.length bs)%nat -> List.length (slice a b bs) = (b - a)%nat.
Proof.
  intros H. unfold slice. rewrite length_firstn, length_skipn. lia.
Qed.

Lemma forallb_scalar (s : pystr) :
  Forall (fun c => is_scalar c = true) s -> forallb is_scalar s = true.
Proof. intros H. apply forallb_forall. apply Forall_forall. exact H. Qed.

Lemma fits_le_value (n : nat) (bs : bytes) :
  List.length bs = n -> fits n (PyInt (le_value bs)) = true.
Proof.
  intros <-. cbn [fits]. pose proof (le_value_range bs). lia.
Qed.

(** Every header that [from_bytes] returns is well-formed. *)
Lemma from_bytes_header_ok (data : bytes) (h : FMORawHeader) :
  from_bytes data = Ok h -> header_ok h = true.
Proof.
  intros H. pose proof (from_bytes_Ok_length _ _ H) as Hl.
  change HEADER_SIZE with 22%nat in Hl.
  rewrite from_bytes_long in H by exact Hl. injection H as <-.
  unfold header_ok, init. cbn [version padding1 uid padding2 callsign shadow].
  rewrite !fits_le_value by (apply slice_length; lia).
  cbn [is_text]. rewrite forallb_scalar by apply utf8_decode_scalar.
  reflexivity.
Qed.

Lemma from_bytes_packed (a b c d e : bytes) :
  List.length a = 4%nat -> List.length b = 2%nat -> List.length c = 2%nat ->
  List.length d = 2%nat -> List.length e = 12%nat ->
  from_bytes (a ++ b ++ c ++ d ++ e)
  = Ok (init (PyInt (le_value a)) (PyInt (le_value c))
             (PyStr (utf8_decode (rstrip_zeros e)))
             (PyInt (le_value b)) (PyInt (le_value d))).
Proof.
  intros Ha Hb Hc Hd He. unfold from_bytes.
  assert (Hl : List.length (a ++ b ++ c ++ d ++ e) = 22%nat)
    by (rewrite !length_app; lia).
  rewrite Hl. change (22 <? HEADER_SIZE)%nat with false. cbv iota.
  unfold slice at 1. cbn [skipn]. rewrite firstn_all2 by (rewrite Hl; exact (Nat.le_refl 22)).
  rewrite struct_unpack_app by assumption. reflexivity.
Qed.

Lemma encode_char_last (c : Z) (enc : bytes) :
  utf8_encode_char c = Some enc ->
  enc <> [] /\ (c <> 0 -> last enc x01 <> x00).
Proof.
  intros H. pose proof (encode_char_scalar c enc H) as Hs.
  apply is_scalar_true in Hs.
  assert (N : forall z, 0 < z < 256 -> byte_of_Z z <> x00).
  { intros z Hz E. apply (f_equal byte_val) in E.
    rewrite byte_val_of_Z_small in E by lia. change (byte_val x00) with 0 in E.
    lia. }
  assert (Hc : 0 <= c < 0x80 \/ 0x80 <= c < 0x800 \/
               (0x800 <= c < 0xD800 \/ 0xDFFF < c < 0x10000) \/
               0x10000 <= c <= 0x10FFFF) by lia.
  destruct Hc as [Hc|[Hc|[Hc|Hc]]].
  - rewrite encode_char_1 in H by lia. apply some_inj in H. subst enc.
    split; [discriminate|]. intros Hz. cbn [last]. apply N. lia.
  - rewrite encode_char_2 in H by lia. apply some_inj in H. subst enc.
    split; [discriminate|]. intros _. cbn [last]. apply N. zdiv.
  - rewrite encode_char_3 in H by lia. apply some_inj in H. subst enc.
    split; [discriminate|]. intros _. cbn [last]. apply N. zdiv.
  - rewrite encode_char_4 in H by lia. apply some_inj in H. subst enc.
    split; [discriminate|]. intros _. cbn [last]. apply N. zdiv.
Qed.

Lemma utf8_encode_nonempty (s : pystr) (bs : bytes) :
  utf8_encode s = Ok bs -> s <> [] -> bs <> [].
Proof.
  destruct s as [|c s]; [contradiction|].
  intros H _. apply utf8_encode_cons in H as (enc & r & Hc & _ & ->).
  apply encode_char_last in Hc as [Hne _].
  destruct enc; [contradiction|discriminate].
Qed.

(** The UTF-8 form of a text ends with a zero byte only if the text ends
    with U+0000. *)
Lemma utf8_encode_last (s : pystr) :
  forall bs, utf8_encode s = Ok bs -> ends_with_NUL s = false ->
             last bs x01 <> x00.
Proof.
  unfold ends_with_NUL.
  induction s as [|c s IH]; intros bs H Hn.
  - cbn in H. apply (f_equal (fun r => match r with Ok x => x | _ => [] end))
      in H. subst bs. discriminate.
  - apply utf8_encode_cons in H as (enc & r & Hc & Hr & ->).
    destruct s as [|c' s'].
    + cbn in Hr. assert (r = []) by congruence. subst r.
      rewrite app_nil_r. cbn [last] in Hn.
      apply (encode_char_last c enc Hc). lia.
    + rewrite last_app_nonempty
        by (eapply utf8_encode_nonempty; [exact Hr|discriminate]).
      apply IH; [exact Hr|exact Hn].
Qed.

Lemma utf8_encode_text (s : pystr) :
  forallb is_scalar s = true -> exists bs, utf8_encode s = Ok bs.
Proof.
  induction s as [|c s IH]; intros H.
  - exists []. reflexivity.
  - cbn [forallb] in H. apply andb_true_iff in H as [Hc Hs].
    destruct (IH Hs) as [r Hr].
    destruct (utf8_encode_char c) as [enc|] eqn:E.
    + exists (enc ++ r). apply utf8_encode_app_char; assumption.
    + apply encode_char_None in E. congruence.
Qed.

Lemma header_ok_fields (h : FMORawHeader) :
  header_ok h = true ->
  exists v p1 u p2 s,
    h = init (PyInt v) (PyInt u) (PyStr s) (PyInt p1) (PyInt p2) /\
    0 <= v < 2 ^ 32 /\ 0 <= p1 < 2 ^ 16 /\ 0 <= u < 2 ^ 16 /\
    0 <= p2 < 2 ^ 16 /\ forallb is_scalar s = true.
Proof.
  destruct h as [v u c p1 p2 sh]. unfold header_ok.
  cbn [version uid callsign padding1 padding2 shadow].
  intros H. repeat (apply andb_true_iff in H as [H ?]).
  destruct sh; [|discriminate].
  destruct v as [v|]; [|discriminate]. destruct p1 as [p1|]; [|discriminate].
  destruct u as [u|]; [|discriminate]. destruct p2 as [p2|]; [|discriminate].
  destruct c as [|s]; [discriminate|].
  exists v, p1, u, p2, s. cbn [fits is_text] in *.
  change (2 ^ (8 * Z.of_nat VERSION_SIZE)) with (2 ^ 32) in *.
  change (2 ^ (8 * Z.of_nat PADDING_SIZE_1)) with (2 ^ 16) in *.
  change (2 ^ (8 * Z.of_nat PADDING_SIZE_2)) with (2 ^ 16) in *.
  change (2 ^ (8 * Z.of_nat UID_SIZE)) with (2 ^ 16) in *.
  repeat split; try lia. assumption.
Qed.

(** [to_bytes] on a well-formed header: the four integers in little-endian
    order, then the first 12 bytes of the callsign's UTF-8 form, padded
    with zero bytes. *)
Lemma to_bytes_ok (v p1 u p2 : Z) (s : pystr) (enc : bytes) :
  0 <= v < 2 ^ 32 -> 0 <= p1 < 2 ^ 16 -> 0 <= u < 2 ^ 16 ->
  0 <= p2 < 2 ^ 16 -> utf8_encode s = Ok enc ->
  to_bytes (init (PyInt v) (PyInt u) (PyStr s) (PyInt p1) (PyInt p2))
  = Ok (le_bytes 4 v ++ le_bytes 2 p1 ++ le_bytes 2 u ++ le_bytes 2 p2
        ++ (firstn 12 enc ++ repeat x00 (12 - List.length (firstn 12 enc)))).
Proof.
  intros Hv Hp1 Hu Hp2 He. unfold to_bytes, init.
  cbn [callsign version uid padding1 padding2 encode_callsign].
  rewrite He. cbn [rbind]. unfold self_CALLSIGN_SIZE. cbn [shadow lookup].
  rewrite ljust_CALLSIGN_SIZE. cbn [rbind].
  unfold struct_pack, pack_uint.
  change (2 ^ (8 * Z.of_nat 4)) with (2 ^ 32).
  change (2 ^ (8 * Z.of_nat 2)) with (2 ^ 16).
  replace ((0 <=? v) && (v <? 2 ^ 32)) with true by lia.
  replace ((0 <=? p1) && (p1 <? 2 ^ 16)) with true by lia.
  replace ((0 <=? u) && (u <? 2 ^ 16)) with true by lia.
  replace ((0 <=? p2) && (p2 <? 2 ^ 16)) with true by lia.
  cbn [rbind]. unfold slice_to, ljust_zeros.
  change (Z.of_nat CALLSIGN_SIZE <? 0) with false. cbv iota.
  change (Z.to_nat (Z.of_nat CALLSIGN_SIZE)) with 12%nat.
  rewrite pack_12s_exact; [reflexivity|].
  rewrite length_app, repeat_length, length_firstn. lia.
Qed.

Lemma header_ok_to_bytes (h : FMORawHeader) :
  header_ok h = true -> exists bs, to_bytes h = Ok bs.
Proof.
  intros H.
  apply header_ok_fields in H
    as (v & p1 & u & p2 & s & -> & Hv & Hp1 & Hu & Hp2 & Hs).
  destruct (utf8_encode_text s Hs) as [enc He].
  eexists. apply to_bytes_ok; eassumption.
Qed.

Lemma call_to_bytes_length (h : FMORawHeader) (bs : bytes) :
  call_to_bytes h = Ok bs -> List.length bs = HEADER_SIZE.
Proof.
  unfold call_to_bytes. destruct (lookup "to_bytes" (shadow h)).
  - discriminate.
  - apply to_bytes_length.
Qed.

(** Whatever the updates, a packet that [replace_header_in_stream] returns
    is a 22-byte header followed by the payload of the input. *)
Lemma replace_header_keeps_payload (stream : bytes)
      (updates : list (string * pyval)) (out : bytes) :
  replace_header_in_stream stream updates = Ok out ->
  skipn HEADER_SIZE out = skipn HEADER_SIZE stream /\
  List.length out = List.length stream.
Proof.
  unfold replace_header_in_stream.
  destruct (from_bytes stream) as [h|] eqn:Eh; cbn [rbind]; [|discriminate].
  destruct (apply_updates h updates) as [h'|]; cbn [rbind]; [|discriminate].
  destruct (call_to_bytes h') as [nh|] eqn:En; cbn [rbind]; [|discriminate].
  intros H. apply (f_equal (fun r => match r with Ok x => x | _ => [] end)) in H.
  subst out.
  apply call_to_bytes_length in En. apply from_bytes_Ok_length in Eh.
  split.
  - rewrite skipn_app, En, Nat.sub_diag, skipn_all2 by lia. reflexivity.
  - rewrite length_app, length_skipn. lia.
Qed.

(** No data descriptor stands under the name of a field. *)
Lemma update_ok_not_refused (key : string) (value : pyval) :
  update_ok (key, value) = true -> descriptor_refuses key = None.
Proof.
  unfold update_ok. intros Hu.
  destruct (String.eqb key "version") eqn:E1;
    [apply String.eqb_eq in E1; subst key; reflexivity|].
  destruct (String.eqb key "uid") eqn:E2;
    [apply String.eqb_eq in E2; subst key; reflexivity|].
  destruct (String.eqb key "callsign") eqn:E3;
    [apply String.eqb_eq in E3; subst key; reflexivity|].
  destruct (String.eqb key "padding1") eqn:E4;
    [apply String.eqb_eq in E4; subst key; reflexivity|].
  destruct (String.eqb key "padding2") eqn:E5;
    [apply String.eqb_eq in E5; subst key; reflexivity|discriminate].
Qed.

Lemma setattr_ok (h : FMORawHeader) (key : string) (value : pyval) :
  header_ok h = true -> update_ok (key, value) = true ->
  hasattr h key = true /\ header_ok (setattr h key value) = true.
Proof.
  intros Hh Hu.
  apply header_ok_fields in Hh as (v & p1 & u & p2 & s & -> & Hr).
  unfold update_ok in Hu. unfold hasattr, setattr, field_names, mem.
  cbn [existsb].
  destruct (String.eqb key "version") eqn:E1; [split; [reflexivity|]|].
  2: destruct (String.eqb key "uid") eqn:E2; [split; [reflexivity|]|].
  3: destruct (String.eqb key "callsign") eqn:E3; [split; [reflexivity|]|].
  4: destruct (String.eqb key "padding1") eqn:E4; [split; [reflexivity|]|].
  5: destruct (String.eqb key "padding2") eqn:E5;
       [split; [reflexivity|]|discriminate].
  all: unfold header_ok, init;
    cbn [version uid callsign padding1 padding2 shadow fits is_text];
    rewrite Hu;
    change (2 ^ (8 * Z.of_nat VERSION_SIZE)) with (2 ^ 32);
    change (2 ^ (8 * Z.of_nat PADDING_SIZE_1)) with (2 ^ 16);
    change (2 ^ (8 * Z.of_nat PADDING_SIZE_2)) with (2 ^ 16);
    change (2 ^ (8 * Z.of_nat UID_SIZE)) with (2 ^ 16);
    repeat (apply andb_true_iff; split); try reflexivity; try lia;
    tauto.
Qed.

Lemma apply_updates_ok (updates : list (string * pyval)) :
  forall h, header_ok h = true -> forallb update_ok updates = true ->
            exists h', apply_updates h updates = Ok h' /\
                       header_ok h' = true.
Proof.
  induction updates as [|[key value] rest IH]; intros h Hh Hu.
  - exists h. split; [reflexivity|exact Hh].
  - cbn [forallb] in Hu. apply andb_true_iff in Hu as [Hu Hrest].
    destruct (setattr_ok h key value Hh Hu) as [Ha Hs].
    cbn [apply_updates].
    rewrite Ha, (update_ok_not_refused key value Hu). cbn [negb].
    apply IH; assumption.
Qed.

Lemma header_ok_call_to_bytes (h : FMORawHeader) :
  header_ok h = true -> exists bs, call_to_bytes h = Ok bs.
Proof.
  intros H. destruct (header_ok_to_bytes h H) as [bs Hbs].
  exists bs. unfold call_to_bytes.
  apply header_ok_fields in H as (v & p1 & u & p2 & s & -> & _).
  exact Hbs.
Qed.

(** C3. For every packet of at least 22 bytes and every set of updates:
    whenever [replace_header_in_stream] returns a packet, that packet has
    the bytes of the input from offset 22 on, unchanged, and the length of
    the input; and it does return one when every update sets one of the
    five fields to a value of the field's type. *)
Theorem replace_header_preserves_payload (stream : bytes)
        (updates : list (string * pyval)) :
  (HEADER_SIZE <= List.length stream)%nat ->
  (forall out, replace_header_in_stream stream updates = Ok out ->
               skipn HEADER_SIZE out = skipn HEADER_SIZE stream /\
               List.length out = List.length stream) /\
  (forallb update_ok updates = true ->
   exists out, replace_header_in_stream stream updates = Ok out).
Proof.
  intros Hlen. split.
  - intros out. apply replace_header_keeps_payload.
  - intros Hok. unfold replace_header_in_stream.
    rewrite from_bytes_long by exact Hlen. cbn [rbind].
    edestruct apply_updates_ok as (h' & -> & Hh'); [|exact Hok|].
    { eapply from_bytes_header_ok. apply from_bytes_long. exact Hlen. }
    cbn [rbind]. destruct (header_ok_call_to_bytes h' Hh') as [nh ->].
    cbn [rbind]. eexists. reflexivity.
Qed.

Lemma replace_header_preserves_payload_witness :
  exists out,
    replace_header_in_stream scenario_packet echo_updates = Ok out /\
    skipn HEADER_SIZE out = skipn HEADER_SIZE scenario_packet /\
    List.length out = List.length scenario_packet.
Proof.
  destruct (replace_header_preserves_payload scenario_packet echo_updates)
    as [Hkeep Hret].
  - vm_compute. lia.
  - destruct (Hret eq_refl) as [out Hout]. exists out.
    split; [exact Hout|]. exact (Hkeep out Hout).
Defined.

(** C2, amended. For every header whose integer fields fit their widths
    and whose callsign is a text of Unicode scalar values that encodes to
    at most 12 UTF-8 bytes and does not end with U+0000, decoding what
    [to_bytes] returns gives the header back, all five fields equal. *)
Theorem from_bytes_to_bytes_roundtrip (h : FMORawHeader) (s : pystr)
        (enc : bytes) :
  header_ok h = true ->
  callsign h = PyStr s ->
  utf8_encode s = Ok enc ->
  (List.length enc <= CALLSIGN_SIZE)%nat ->
  ends_with_NUL s = false ->
  rbind (to_bytes h) from_bytes = Ok h.
Proof.
  intros Hh Hc He Hl Hn.
  apply header_ok_fields in Hh
    as (v & p1 & u & p2 & s' & -> & Hv & Hp1 & Hu & Hp2 & Hs).
  cbn [callsign init] in Hc. injection Hc as ->.
  rewrite (to_bytes_ok v p1 u p2 s enc) by assumption. cbn [rbind].
  change CALLSIGN_SIZE with 12%nat in Hl.
  rewrite firstn_all2 by exact Hl.
  rewrite from_bytes_packed
    by (rewrite ?le_bytes_length, ?length_app, ?repeat_length; lia).
  rewrite !le_value_le_bytes by (cbn; lia).
  rewrite rstrip_zeros_app_zeros.
  rewrite rstrip_zeros_id by (apply (utf8_encode_last s); assumption).
  rewrite (utf8_decode_encode s enc He). reflexivity.
Qed.

Lemma from_bytes_to_bytes_roundtrip_witness :
  rbind (to_bytes ECHO_header) from_bytes = Ok ECHO_header.
Proof.
  apply (from_bytes_to_bytes_roundtrip ECHO_header [69; 67; 72; 79]
           [x45; x43; x48; x4f]).
  - reflexivity.
  - reflexivity.
  - reflexivity.
  - unfold CALLSIGN_SIZE. cbn [List.length]. lia.
  - reflexivity.
Defined.

(** C2 as stated fails: the callsign ["A\x00"] encodes to 2 bytes, and the
    zero byte of its U+0000 is stripped with the padding when the header
    is decoded, so the round trip returns the callsign ["A"]. *)
Lemma roundtrip_loses_trailing_NUL :
  header_ok A_NUL_header = true /\
  callsign A_NUL_header = PyStr [65; 0] /\
  utf8_length [65; 0] = Some 2%nat /\
  rbind (to_bytes A_NUL_header) from_bytes
  = Ok (init (PyInt 1) (PyInt 1) (PyStr [65]) (PyInt 0) (PyInt 0)) /\
  rbind (to_bytes A_NUL_header) from_bytes <> Ok A_NUL_header.
Proof.
  repeat split. vm_compute. discriminate.
Qed.

(** C1 at the callsign of eleven [A] and a euro sign. [to_bytes] keeps the
    first 12 of the 14 bytes of its UTF-8 form, which cuts the three-byte
    euro sign after its first byte; [from_bytes] then reads U+FFFD there,
    and the decoded callsign has 14 bytes of UTF-8 and is no prefix of
    the original. *)
Theorem to_bytes_cuts_inside_code_point :
  utf8_encode A11_euro = Ok (repeat x41 11 ++ [xe2; x82; xac]) /\
  (exists bs,
      to_bytes A11_euro_header = Ok bs /\
      List.length bs = 22%nat /\
      slice 10 22 bs = repeat x41 11 ++ [xe2] /\
      from_bytes bs
      = Ok (init (PyInt 1) (PyInt 100)
                 (PyStr (repeat 65 11 ++ [REPLACEMENT]))
                 (PyInt 0) (PyInt 0))) /\
  utf8_encode (repeat 65 11 ++ [REPLACEMENT])
  = Ok (repeat x41 11 ++ [xef; xbf; xbd]).
Proof.
  split; [reflexivity|]. split; [|reflexivity].
  eexists. split; [vm_compute; reflexivity|]. repeat split.
Qed.

(** What the key check of [replace_header_in_stream] does ensure: the five
    field names pass it, so the loop raises only at a key that is none of
    them: with the [AttributeError] of the check, or with what a data
    descriptor of the class answers to [setattr]. *)
Lemma hasattr_field (h : FMORawHeader) (key : string) :
  In key field_names -> hasattr h key = true.
Proof.
  intros H. unfold hasattr.
  replace (mem key field_names) with true; [reflexivity|].
  symmetry. apply existsb_exists. exists key.
  split; [exact H|apply String.eqb_refl].
Qed.

Lemma apply_updates_raises (updates : list (string * pyval)) :
  forall h e, apply_updates h updates = Raise e ->
              exists key, (e = AttributeError key \/
                           descriptor_refuses key = Some e) /\
                          In key (map fst updates) /\
                          ~ In key field_names.
Proof.
  induction updates as [|[key value] rest IH]; intros h e H.
  - discriminate.
  - cbn [apply_updates] in H. destruct (hasattr h key) eqn:Ha; cbn [negb] in H.
    + destruct (descriptor_refuses key) as [e'|] eqn:D.
      * exists key. split; [right; congruence|].
        split; [left; reflexivity|].
        intros Hin. cbn [field_names In] in Hin.
        repeat (destruct Hin as [<-|Hin]; [discriminate D|]).
        exact Hin.
      * destruct (IH _ _ H) as (k & He & Hin & Hout).
        exists k. split; [exact He|]. split; [right; exact Hin|exact Hout].
    + exists key. split; [left; congruence|]. split; [left; reflexivity|].
      intros Hin. rewrite (hasattr_field h key Hin) in Ha. discriminate.
Qed.

(** A name of [inherited_names] passes the key check too. Under one that
    no data descriptor refuses, the value goes to the instance dictionary,
    where nothing reads it: the packet comes back as with no update. *)
Lemma lookup_store_other (k k' : string) (v : pyval)
      (d : list (string * pyval)) :
  k <> k' -> lookup k (store k' v d) = lookup k d.
Proof.
  intros Hne. apply String.eqb_neq in Hne.
  induction d as [|[k0 v0] d IH]; cbn [store lookup].
  - rewrite Hne. reflexivity.
  - destruct (String.eqb k' k0) eqn:E; cbn [lookup].
    + apply String.eqb_eq in E. subst k0. rewrite Hne. reflexivity.
    + rewrite IH. reflexivity.
Qed.

Lemma call_to_bytes_store (h : FMORawHeader) (key : string) (value : pyval) :
  key <> "to_bytes"%string -> key <> "CALLSIGN_SIZE"%string ->
  call_to_bytes (mkHeader (version h) (uid h) (callsign h) (padding1 h)
                          (padding2 h) (store key value (shadow h)))
  = call_to_bytes h.
Proof.
  intros H1 H2. unfold call_to_bytes, to_bytes, self_CALLSIGN_SIZE.
  cbn [shadow version uid callsign padding1 padding2].
  rewrite !lookup_store_other by (intros E; symmetry in E; contradiction).
  reflexivity.
Qed.

Lemma replace_header_inherited_name (stream : bytes) (key : string)
      (value : pyval) :
  In key inherited_names -> descriptor_refuses key = None ->
  replace_header_in_stream stream [(key, value)]
  = replace_header_in_stream stream [].
Proof.
  intros Hin Hd. unfold replace_header_in_stream.
  destruct (from_bytes stream) as [h|e]; cbn [rbind]; [|reflexivity].
  cbn [apply_updates].
  assert (Ha : hasattr h key = true).
  { unfold hasattr.
    replace (mem key inherited_names) with true; [apply orb_true_r|].
    symmetry. apply existsb_exists. exists key.
    split; [exact Hin|apply String.eqb_refl]. }
  rewrite Ha, Hd. cbn [negb rbind].
  assert (Hc : call_to_bytes (setattr h key value) = call_to_bytes h).
  { cbn [inherited_names In] in Hin.
    repeat (destruct Hin as [<-|Hin];
            [first [vm_compute in Hd; discriminate Hd
                   |apply (call_to_bytes_store h _ value); discriminate]|]).
    contradiction. }
  rewrite Hc. reflexivity.
Qed.

(** C4 at two keys that are none of the five fields but that the class
    binds: the update [HEADER_SIZE=0] is accepted and changes nothing, and
    the update [to_bytes=0] hides the method, so that the call of
    [header.to_bytes()] raises [TypeError]. Neither raises
    [AttributeError]. *)
Theorem replace_header_accepts_class_names :
  replace_header_in_stream (repeat x00 22) [("HEADER_SIZE"%string, PyInt 0)]
  = Ok (repeat x00 22) /\
  replace_header_in_stream (repeat x00 22) [("to_bytes"%string, PyInt 0)]
  = Raise TypeError.
Proof. split; reflexivity. Qed.




(** ** The echo service *)

Section ServiceProofs.

Variable broker : list (string * bytes) -> string -> bytes -> result Z.
Variable cfg : config.


(** One turn of the replay loop returns, whatever happens to the packet:
    it counts the packet once, logs one record for it, and touches neither
    the buffer nor the timestamp. *)
Lemma replay_one_run (total i : nat) (msg : bytes) (s f : nat)
      (st : service) :
  exists c' r,
    EchoService.replay_one broker cfg total i msg (s, f) st
    = (Ok c', mkService (message_buffer st) (last_message_time st)
                        (publish_calls st ++ attempted cfg msg)
                        (log st ++ [r])) /\
    outcome_index r = Some i /\
    (c' = (S s, f) \/ c' = (s, S f)) /\
    (c' = (S s, f) <->
     exists m, outbound cfg msg = Ok m /\
               broker (publish_calls st) (topics_publish cfg) m
               = Ok MQTT_ERR_SUCCESS).
Proof.
  unfold EchoService.replay_one, EchoService.attempted, EchoService.outbound,
    try_except, bind, lift, publish, logger, ret.
  destruct (from_bytes msg) as [h|e] eqn:Eh; cbn [rbind].
  2:{ exists (s, S f), (ReplayError i e). rewrite app_nil_r.
      split; [reflexivity|]. split; [reflexivity|].
      split; [right; reflexivity|]. split.
      - intros H; injection H; lia.
      - intros (m & Hm & _). discriminate. }
  destruct (replace_header_in_stream msg _) as [m|e] eqn:Em.
  2:{ exists (s, S f), (ReplayError i e). rewrite app_nil_r.
      split; [reflexivity|]. split; [reflexivity|].
      split; [right; reflexivity|]. split.
      - intros H; injection H; lia.
      - intros (m & Hm & _). discriminate. }
  cbn [publish_calls message_buffer last_message_time log].
  destruct (broker (publish_calls st) (topics_publish cfg) m) as [rc|e] eqn:Eb.
  2:{ exists (s, S f), (ReplayError i e).
      split; [reflexivity|]. split; [reflexivity|].
      split; [right; reflexivity|]. split.
      - intros H; injection H; lia.
      - intros (m' & Hm & Hb). injection Hm as <-. congruence. }
  destruct (rc =? MQTT_ERR_SUCCESS) eqn:Erc.
  - apply Z.eqb_eq in Erc. subst rc. eexists (S s, f), _.
    split; [reflexivity|]. split; [reflexivity|].
    split; [left; reflexivity|]. split; [|reflexivity].
    intros _. exists m. split; [reflexivity|exact Eb].
  - exists (s, S f), (PublishFailed i rc).
    split; [reflexivity|]. split; [reflexivity|].
    split; [right; reflexivity|]. split.
    + intros H; injection H; lia.
    + intros (m' & Hm & Hb). injection Hm as <-.
      apply Z.eqb_neq in Erc. congruence.
Qed.

Lemma replay_loop_run (items : list bytes) :
  forall (total i : nat) (c : nat * nat) (st : service),
  exists c' records,
    EchoService.replay_loop broker cfg total i items c st
    = (Ok c', mkService (message_buffer st) (last_message_time st)
                        (publish_calls st ++ flat_map (attempted cfg) items)
                        (log st ++ records)) /\
    map outcome_index records = map Some (seq i (List.length items)) /\
    (fst c' + snd c' = fst c + snd c + List.length items)%nat.
Proof.
  induction items as [|msg rest IH]; intros total i [s f] st.
  - exists (s, f), []. cbn [replay_loop flat_map]. rewrite !app_nil_r.
    destruct st. cbn. repeat split. lia.
  - destruct (replay_one_run total i msg s f st)
      as (c1 & r & Hone & Hidx & Hc1 & _).
    cbn [EchoService.replay_loop]. unfold bind at 1. rewrite Hone.
    match goal with
    | |- context [EchoService.replay_loop broker cfg total (S i) rest c1 ?st1] =>
        destruct (IH total (S i) c1 st1) as (c' & records & Hrun & Hrec & Hsum)
    end.
    rewrite Hrun.
    cbn [message_buffer last_message_time publish_calls log].
    exists c', (r :: records). cbn [flat_map].
    rewrite <- !app_assoc. split; [reflexivity|].
    cbn [List.length seq map]. rewrite Hidx, Hrec. split; [reflexivity|].
    destruct Hc1 as [-> | ->]; cbn [fst snd] in *; lia.
Qed.

(** [_replay_messages] always returns: no failure inside the loop reaches
    its caller. *)
Lemma replay_messages_run (st : service) :
  exists records success_count fail_count,
    _replay_messages broker cfg st
    = (Ok tt,
       mkService (message_buffer st) (last_message_time st)
                 (publish_calls st ++ flat_map (attempted cfg) (message_buffer st))
                 (log st ++ records
                  ++ [ReplayDone success_count fail_count
                                 (List.length (message_buffer st))])) /\
    map outcome_index records
    = map Some (seq 1 (List.length (message_buffer st))) /\
    (success_count + fail_count = List.length (message_buffer st))%nat /\
    EchoService.replay_loop broker cfg (List.length (message_buffer st)) 1 (message_buffer st)
                (O, O) st
    = (Ok (success_count, fail_count),
       mkService (message_buffer st) (last_message_time st)
                 (publish_calls st ++ flat_map (attempted cfg) (message_buffer st))
                 (log st ++ records)).
Proof.
  destruct (replay_loop_run (message_buffer st)
              (List.length (message_buffer st)) 1 (O, O) st)
    as ([s f] & records & Hrun & Hrec & Hsum).
  exists records, s, f.
  unfold EchoService._replay_messages, bind, get, logger. rewrite Hrun.
  cbn [message_buffer last_message_time publish_calls log fst snd] in *.
  rewrite <- app_assoc. repeat split; auto.
Qed.


(** A timeout that has expired: the replay, if the buffer holds anything,
    and then the reset of the buffer and of the timestamp. *)
Lemma check_timeout_fires (st : service) (now last : Z) :
  last_message_time st = Some last ->
  now - last > echo_timeout cfg ->
  exists new_log,
    _check_timeout broker cfg now st
    = (Ok tt,
       mkService [] None
                 (publish_calls st ++ flat_map (attempted cfg) (message_buffer st))
                 (log st ++ new_log)) /\
    (message_buffer st = [] -> new_log = []) /\
    (message_buffer st <> [] ->
     exists records success_count fail_count,
       new_log = TimeoutDetected (now - last) (List.length (message_buffer st))
                   :: records
                   ++ [ReplayDone success_count fail_count
                                  (List.length (message_buffer st))] /\
       map outcome_index records
       = map Some (seq 1 (List.length (message_buffer st))) /\
       (success_count + fail_count = List.length (message_buffer st))%nat /\
       fst (EchoService.replay_loop broker cfg
              (List.length (message_buffer st)) 1
              (message_buffer st) (O, O)
              (mkService (message_buffer st) (last_message_time st)
                 (publish_calls st)
                 (log st
                  ++ [TimeoutDetected (now - last)
                        (List.length (message_buffer st))])))
       = Ok (success_count, fail_count)).
Proof.
  intros Hlast Hgt.
  unfold EchoService._check_timeout. unfold bind at 1. unfold get at 1.
  rewrite Hlast.
  replace (now - last >? echo_timeout cfg) with true by lia.
  destruct (message_buffer st) as [|m rest] eqn:Hbuf.
  - exists []. unfold bind, ret, reset_state.
    cbn [flat_map publish_calls log]. rewrite !app_nil_r.
    split; [reflexivity|]. split; [reflexivity|]. intros H. contradiction.
  - rewrite <- Hbuf.
    unfold bind at 1. unfold bind at 1. unfold logger at 1.
    match goal with
    | |- context [_replay_messages broker cfg ?st1] =>
        destruct (replay_messages_run st1)
          as (records & s & f & Hrun & Hrec & Hsum & Hloop)
    end.
    cbn [message_buffer last_message_time publish_calls log] in *.
    rewrite Hrun. unfold reset_state. cbn [publish_calls log].
    eexists. split; [rewrite <- app_assoc; reflexivity|].
    split; [intros H; rewrite Hbuf in H; discriminate|].
    intros _. exists records, s, f.
    split; [reflexivity|]. split; [exact Hrec|]. split; [exact Hsum|].
    rewrite Hlast in Hloop. rewrite Hloop. reflexivity.
Qed.

Lemma check_timeout_idle (st : service) (now : Z) :
  last_message_time st = None ->
  _check_timeout broker cfg now st = (Ok tt, st).
Proof.
  intros H. unfold EchoService._check_timeout, bind, get, ret.
  rewrite H. reflexivity.
Qed.

Lemma check_timeout_waits (st : service) (now last : Z) :
  last_message_time st = Some last ->
  now - last <= echo_timeout cfg ->
  _check_timeout broker cfg now st = (Ok tt, st).
Proof.
  intros H Hle. unfold EchoService._check_timeout, bind, get, ret.
  rewrite H. replace (now - last >? echo_timeout cfg) with false by lia.
  reflexivity.
Qed.


Lemma attempted_Ok (msg out : bytes) :
  outbound cfg msg = Ok out -> attempted cfg msg = [(topics_publish cfg, out)].
Proof. intros H. unfold attempted. rewrite H. reflexivity. Qed.

(** Three packets, the second of which the transport refuses. *)
Lemma replay_loop_second_fails (total : nat) (m1 m2 m3 o1 o2 o3 : bytes)
      (st : service) :
  outbound cfg m1 = Ok o1 -> outbound cfg m2 = Ok o2 ->
  outbound cfg m3 = Ok o3 ->
  broker (publish_calls st) (topics_publish cfg) o1 = Ok MQTT_ERR_SUCCESS ->
  broker (publish_calls st ++ [(topics_publish cfg, o1)])
         (topics_publish cfg) o2 <> Ok MQTT_ERR_SUCCESS ->
  broker (publish_calls st ++ [(topics_publish cfg, o1);
                               (topics_publish cfg, o2)])
         (topics_publish cfg) o3 = Ok MQTT_ERR_SUCCESS ->
  fst (replay_loop broker cfg total 1 [m1; m2; m3] (O, O) st)
  = Ok (2%nat, 1%nat).
Proof.
  intros H1 H2 H3 B1 B2 B3. cbn [replay_loop].
  unfold bind at 1.
  destruct (replay_one_run total 1 m1 O O st)
    as (c1 & r1 & E1 & _ & _ & S1).
  rewrite E1. assert (c1 = (1%nat, O)) as ->
      by (apply S1; exists o1; split; assumption).
  rewrite (attempted_Ok m1 o1 H1).
  unfold bind at 1.
  match goal with
  | |- context [replay_one broker cfg total 2 m2 _ ?st2] =>
      destruct (replay_one_run total 2 m2 1 O st2)
        as (c2 & r2 & E2 & _ & D2 & S2)
  end.
  rewrite E2. cbn [publish_calls message_buffer last_message_time log] in *.
  assert (c2 = (1%nat, 1%nat)) as ->.
  { destruct D2 as [D2|D2]; [|exact D2].
    apply S2 in D2 as (m & Hm & Hb). rewrite H2 in Hm.
    injection Hm as <-. contradiction. }
  rewrite (attempted_Ok m2 o2 H2).
  unfold bind at 1.
  match goal with
  | |- context [replay_one broker cfg total 3 m3 _ ?st3] =>
      destruct (replay_one_run total 3 m3 1 1 st3)
        as (c3 & r3 & E3 & _ & _ & S3)
  end.
  rewrite E3. cbn [publish_calls message_buffer last_message_time log] in *.
  assert (c3 = (2%nat, 1%nat)) as ->.
  { apply S3. exists o3. split; [exact H3|].
    rewrite <- app_assoc. exact B3. }
  reflexivity.
Qed.

(** C7. When the timeout fires on a buffer of [n] packets, [n > 0],
    [_check_timeout] returns normally; the packets were handled in arrival
    order, one log record each, numbered 1 to [n]; the [publish] calls are
    those of the packets that could be rewritten, in arrival order; the
    counts reported at the end add up to [n]; and the buffer and the
    timestamp are cleared, whatever failed. With three packets of which
    only the second is refused by the transport, the counts are 2
    succeeded, 1 failed, 3 in total. *)
Theorem replay_is_best_effort (st : service) (now last : Z) :
  last_message_time st = Some last ->
  now - last > echo_timeout cfg ->
  message_buffer st <> [] ->
  let n := List.length (message_buffer st) in
  exists records success_count fail_count,
    _check_timeout broker cfg now st
    = (Ok tt,
       mkService [] None
         (publish_calls st ++ flat_map (attempted cfg) (message_buffer st))
         (log st
          ++ TimeoutDetected (now - last) n
             :: records ++ [ReplayDone success_count fail_count n])) /\
    map outcome_index records = map Some (seq 1 n) /\
    (success_count + fail_count = n)%nat /\
    (forall m1 m2 m3 o1 o2 o3,
        message_buffer st = [m1; m2; m3] ->
        outbound cfg m1 = Ok o1 -> outbound cfg m2 = Ok o2 ->
        outbound cfg m3 = Ok o3 ->
        broker (publish_calls st) (topics_publish cfg) o1
        = Ok MQTT_ERR_SUCCESS ->
        broker (publish_calls st ++ [(topics_publish cfg, o1)])
               (topics_publish cfg) o2 <> Ok MQTT_ERR_SUCCESS ->
        broker (publish_calls st ++ [(topics_publish cfg, o1);
                                     (topics_publish cfg, o2)])
               (topics_publish cfg) o3 = Ok MQTT_ERR_SUCCESS ->
        success_count = 2%nat /\ fail_count = 1%nat /\ n = 3%nat).
Proof.
  intros Hlast Hgt Hne n.
  destruct (check_timeout_fires st now last Hlast Hgt)
    as (new_log & Hrun & _ & Hfull).
  destruct (Hfull Hne) as (records & s & f & -> & Hrec & Hsum & Hloop).
  exists records, s, f. split; [exact Hrun|]. split; [exact Hrec|].
  split; [exact Hsum|].
  intros m1 m2 m3 o1 o2 o3 Hbuf H1 H2 H3 B1 B2 B3.
  subst n. rewrite Hbuf in Hloop |- *.
  match type of Hloop with
  | fst (replay_loop _ _ ?t _ _ _ ?s1) = _ =>
      rewrite (replay_loop_second_fails t m1 m2 m3 o1 o2 o3 s1
                 H1 H2 H3 B1 B2 B3) in Hloop
  end.
  injection Hloop as <- <-. repeat split.
Qed.

(** C6. [_check_timeout] returns normally. When the timestamp is present
    and more than the quiet period has elapsed, it leaves the buffer empty
    and the timestamp absent, whether or not the buffer held anything, and
    any later call leaves that state as it is; otherwise it changes
    nothing. *)
Theorem check_timeout_clears_once (st : service) (now : Z) :
  let '(r, st') := _check_timeout broker cfg now st in
  r = Ok tt /\
  if timed_out cfg now st
  then message_buffer st' = [] /\ last_message_time st' = None /\
       forall later, _check_timeout broker cfg later st' = (Ok tt, st')
  else st' = st.
Proof.
  unfold timed_out.
  destruct (last_message_time st) as [last|] eqn:Hlast.
  2:{ rewrite check_timeout_idle by exact Hlast. split; reflexivity. }
  destruct (now - last >? echo_timeout cfg) eqn:Hgt.
  - destruct (check_timeout_fires st now last Hlast)
      as (new_log & -> & _); [lia|].
    split; [reflexivity|]. split; [reflexivity|]. split; [reflexivity|].
    intros later. apply check_timeout_idle. reflexivity.
  - rewrite (check_timeout_waits st now last Hlast) by lia.
    split; reflexivity.
Qed.

(** C5. A packet whose header carries the relay's own uid leaves the
    service as it was: the buffer, the timestamp and the publish calls are
    unchanged, and the only trace is one log record of level DEBUG. *)
Theorem own_uid_is_dropped (st : service) (now : Z) (payload : bytes)
        (header : FMORawHeader) :
  from_bytes payload = Ok header ->
  uid header = PyInt (echo_uid cfg) ->
  exists record,
    _on_message cfg now payload st
    = (Ok tt,
       mkService (message_buffer st) (last_message_time st)
                 (publish_calls st) (log st ++ [record])) /\
    level_of record = DEBUG.
Proof.
  intros Hh Hu. exists (IgnoredOwnMessage (uid header) (callsign header)).
  split; [|reflexivity].
  unfold EchoService._on_message, try_except, bind, lift, logger.
  rewrite Hh, Hu. cbn [pyval_eqb]. rewrite Z.eqb_refl. reflexivity.
Qed.

(** C10. A packet shorter than 22 bytes: [_on_message] returns normally,
    the [ValueError] of [from_bytes] being caught and logged, and the
    buffer and the timestamp are unchanged. *)
Theorem short_packet_is_contained (st : service) (now : Z)
        (payload : bytes) :
  (List.length payload < HEADER_SIZE)%nat ->
  _on_message cfg now payload st
  = (Ok tt,
     mkService (message_buffer st) (last_message_time st)
               (publish_calls st) (log st ++ [OnMessageError ValueError])).
Proof.
  intros H. unfold EchoService._on_message, try_except, bind, lift, logger.
  rewrite (from_bytes_short payload H). reflexivity.
Qed.

End ServiceProofs.

Lemma replay_is_best_effort_witness :
  exists records,
    _check_timeout second_publish_fails scenario_config 6 three_queued
    = (Ok tt,
       mkService [] None
         [("FMO/RAW"%string, echoed_packet);
          ("FMO/RAW"%string, echoed_packet);
          ("FMO/RAW"%string, echoed_packet)]
         (TimeoutDetected 6 3 :: records ++ [ReplayDone 2 1 3])).
Proof.
  destruct (replay_is_best_effort second_publish_fails scenario_config
              three_queued 6 0)
    as (records & s & f & Hrun & _ & _ & Hscenario).
  - reflexivity.
  - cbn. lia.
  - discriminate.
  - destruct (Hscenario scenario_packet scenario_packet scenario_packet
                echoed_packet echoed_packet echoed_packet)
      as (-> & -> & _).
    + reflexivity.
    + reflexivity.
    + reflexivity.
    + reflexivity.
    + reflexivity.
    + discriminate.
    + reflexivity.
    + exists records. exact Hrun.
Defined.

Lemma own_uid_is_dropped_witness :
  exists record,
    _on_message scenario_config 7 echoed_packet accumulating_service
    = (Ok tt, mkService [scenario_packet] (Some 3) [] [record]) /\
    level_of record = DEBUG.
Proof.
  apply (own_uid_is_dropped scenario_config accumulating_service 7
           echoed_packet
           (init (PyInt 1) (PyInt 65535) (PyStr RE_BD8BOJ)
                 (PyInt 0) (PyInt 0))).
  - reflexivity.
  - reflexivity.
Defined.

Lemma short_packet_is_contained_witness :
  _on_message scenario_config 7 short_payload accumulating_service
  = (Ok tt,
     mkService [scenario_packet] (Some 3) [] [OnMessageError ValueError]).
Proof.
  apply (short_packet_is_contained scenario_config accumulating_service 7
           short_payload).
  unfold HEADER_SIZE, short_payload. cbn. lia.
Defined.

(** C9. With relay uid 65535 and prefix [RE>], the timeout on a buffer
    that holds the packet [{version=1, uid=441, callsign="BD8BOJ"}] with
    payload [DE AD BE EF] makes one [publish] call, whatever the transport
    answers; its packet decodes to uid 65535 and callsign [RE>BD8BOJ] and
    ends with the same four payload bytes. *)
Theorem scenario_replay (broker : list (string * bytes) -> string -> bytes
                                  -> result Z) :
  rbind (to_bytes (init (PyInt 1) (PyInt 441) (PyStr BD8BOJ)
                        (PyInt 0) (PyInt 0)))
        (fun header => Ok (header ++ [xde; xad; xbe; xef]))
  = Ok scenario_packet /\
  from_bytes scenario_packet
  = Ok (init (PyInt 1) (PyInt 441) (PyStr BD8BOJ) (PyInt 0) (PyInt 0)) /\
  skipn HEADER_SIZE scenario_packet = [xde; xad; xbe; xef] /\
  (let st' :=
     snd (_check_timeout broker scenario_config 6
            (mkService [scenario_packet] (Some 0) [] [])) in
   publish_calls st' = [("FMO/RAW"%string, echoed_packet)] /\
   message_buffer st' = [] /\ last_message_time st' = None) /\
  from_bytes echoed_packet
  = Ok (init (PyInt 1) (PyInt 65535) (PyStr RE_BD8BOJ) (PyInt 0) (PyInt 0)) /\
  skipn HEADER_SIZE echoed_packet = [xde; xad; xbe; xef].
Proof.
  split; [reflexivity|]. split; [reflexivity|]. split; [reflexivity|].
  split; [|split; reflexivity].
  destruct (check_timeout_fires broker scenario_config
              (mkService [scenario_packet] (Some 0) [] []) 6 0)
    as (new_log & -> & _).
  - reflexivity.
  - cbn. lia.
  - cbv zeta. cbn [snd publish_calls message_buffer last_message_time].
    repeat split.
Qed.

(* ================================================================== *)
(** * Further properties *)

Import Header EchoService HeaderMore.

(** ** More of the header codec *)

Lemma slice_firstn (a b n : nat) (data : bytes) :
  (b <= n)%nat -> slice a b (firstn n data) = slice a b data.
Proof.
  intros H. unfold slice. rewrite skipn_firstn_comm, firstn_firstn.
  f_equal. lia.
Qed.

Lemma from_bytes_firstn (data : bytes) :
  (HEADER_SIZE <= List.length data)%nat ->
  from_bytes (firstn HEADER_SIZE data) = from_bytes data.
Proof.
  intros H. change HEADER_SIZE with 22%nat in *.
  rewrite (from_bytes_long data) by exact H.
  rewrite from_bytes_long by (rewrite length_firstn; change HEADER_SIZE with 22%nat; lia).
  rewrite !slice_firstn by lia. reflexivity.
Qed.

(** X1. [from_bytes] reads the first 22 bytes and nothing else: two inputs
    that agree on them decode alike, whatever follows. *)
Theorem from_bytes_reads_header_only (data1 data2 : bytes) :
  (HEADER_SIZE <= List.length data1)%nat ->
  (HEADER_SIZE <= List.length data2)%nat ->
  firstn HEADER_SIZE data1 = firstn HEADER_SIZE data2 ->
  from_bytes data1 = from_bytes data2.
Proof.
  intros H1 H2 H.
  rewrite <- (from_bytes_firstn data1 H1), <- (from_bytes_firstn data2 H2), H.
  reflexivity.
Qed.

Lemma from_bytes_reads_header_only_witness :
  from_bytes scenario_packet = from_bytes (firstn 22 scenario_packet ++ [x00]).
Proof.
  apply (from_bytes_reads_header_only scenario_packet
           (firstn 22 scenario_packet ++ [x00])).
  - vm_compute. lia.
  - vm_compute. lia.
  - reflexivity.
Defined.

Lemma from_bytes_app (hd payload : bytes) :
  List.length hd = HEADER_SIZE -> from_bytes (hd ++ payload) = from_bytes hd.
Proof.
  intros H. rewrite <- (from_bytes_firstn (hd ++ payload))
    by (rewrite length_app; lia).
  rewrite firstn_app, H, Nat.sub_diag, firstn_O, app_nil_r.
  rewrite firstn_all2 by lia. reflexivity.
Qed.

(** *** What [to_bytes] returns or raises *)

Lemma utf8_encode_raises (s : pystr) (e : exn) :
  utf8_encode s = Raise e -> e = UnicodeEncodeError.
Proof.
  induction s as [|c s IH]; cbn [utf8_encode]; [discriminate|].
  destruct (utf8_encode_char c); [|congruence].
  destruct (utf8_encode s); cbn [rbind]; [discriminate|].
  intros H. apply IH. congruence.
Qed.

Lemma utf8_encode_not_text (s : pystr) :
  forallb is_scalar s = false -> utf8_encode s = Raise UnicodeEncodeError.
Proof.
  intros H. destruct (utf8_encode s) as [bs|e] eqn:E.
  - assert (Hs : forallb is_scalar s = true); [|congruence].
    apply forallb_scalar. rewrite <- (utf8_decode_encode s bs E).
    apply utf8_decode_scalar.
  - f_equal. eapply utf8_encode_raises. exact E.
Qed.

Lemma layout_length (v p1 u p2 : Z) (enc : bytes) :
  List.length (layout v p1 u p2 enc) = 22%nat.
Proof.
  unfold layout.
  rewrite !length_app, !le_bytes_length, repeat_length, length_firstn. lia.
Qed.

Lemma to_bytes_struct_error (v p1 u p2 : Z) (s : pystr) (enc : bytes) :
  utf8_encode s = Ok enc ->
  fits 4 (PyInt v) && fits 2 (PyInt p1) && fits 2 (PyInt u)
  && fits 2 (PyInt p2) = false ->
  to_bytes (init (PyInt v) (PyInt u) (PyStr s) (PyInt p1) (PyInt p2))
  = Raise StructError.
Proof.
  intros He Hf. unfold to_bytes, init.
  cbn [callsign version uid padding1 padding2 encode_callsign].
  rewrite He. cbn [rbind]. unfold self_CALLSIGN_SIZE. cbn [shadow lookup].
  rewrite ljust_CALLSIGN_SIZE. cbn [rbind].
  unfold struct_pack, pack_uint. cbn [fits] in Hf.
  destruct ((0 <=? v) && (v <? 2 ^ (8 * Z.of_nat 4))); [|reflexivity].
  destruct ((0 <=? p1) && (p1 <? 2 ^ (8 * Z.of_nat 2))); [|reflexivity].
  destruct ((0 <=? u) && (u <? 2 ^ (8 * Z.of_nat 2))); [|reflexivity].
  destruct ((0 <=? p2) && (p2 <? 2 ^ (8 * Z.of_nat 2))); [|reflexivity].
  discriminate.
Qed.

Lemma fits_range (n : nat) (z : Z) :
  fits n (PyInt z) = true -> 0 <= z < 2 ^ (8 * Z.of_nat n).
Proof. cbn [fits]. lia. Qed.

(** X2. What [to_bytes] does on a header of four integers and a [str].
    A callsign that holds a code point with no UTF-8 form (a surrogate)
    raises [UnicodeEncodeError]; otherwise an integer that does not fit
    its field raises [struct.error]; otherwise the result is the 22 bytes
    of the layout. *)
Theorem to_bytes_outcome (v u p1 p2 : Z) (s : pystr) :
  let h := init (PyInt v) (PyInt u) (PyStr s) (PyInt p1) (PyInt p2) in
  (forallb is_scalar s = false /\ to_bytes h = Raise UnicodeEncodeError)
  \/ (forallb is_scalar s = true /\
      fits 4 (PyInt v) && fits 2 (PyInt p1) && fits 2 (PyInt u)
      && fits 2 (PyInt p2) = false /\
      to_bytes h = Raise StructError)
  \/ (forallb is_scalar s = true /\
      fits 4 (PyInt v) && fits 2 (PyInt p1) && fits 2 (PyInt u)
      && fits 2 (PyInt p2) = true /\
      exists enc, utf8_encode s = Ok enc /\
                  to_bytes h = Ok (layout v p1 u p2 enc) /\
                  List.length (layout v p1 u p2 enc) = 22%nat).
Proof.
  intros h. subst h.
  destruct (forallb is_scalar s) eqn:Hs.
  2:{ left. split; [reflexivity|]. unfold to_bytes, init.
      cbn [callsign encode_callsign]. rewrite (utf8_encode_not_text s Hs).
      reflexivity. }
  right. destruct (utf8_encode_text s Hs) as [enc He].
  destruct (fits 4 (PyInt v) && fits 2 (PyInt p1) && fits 2 (PyInt u)
            && fits 2 (PyInt p2)) eqn:Hf.
  - right. split; [reflexivity|]. split; [reflexivity|].
    exists enc. split; [exact He|]. split; [|apply layout_length].
    apply andb_true_iff in Hf as [Hf H4]. apply andb_true_iff in Hf as [Hf H3].
    apply andb_true_iff in Hf as [Hf H2].
    apply to_bytes_ok;
      [exact (fits_range 4 v Hf)|exact (fits_range 2 p1 H2)
      |exact (fits_range 2 u H3)|exact (fits_range 2 p2 H4)|exact He].
  - left. split; [reflexivity|]. split; [reflexivity|].
    apply (to_bytes_struct_error v p1 u p2 s enc He Hf).
Qed.

(** *** Decoding what [to_bytes] wrote *)

Lemma from_bytes_layout (v p1 u p2 : Z) (enc payload : bytes) :
  0 <= v < 2 ^ 32 -> 0 <= p1 < 2 ^ 16 -> 0 <= u < 2 ^ 16 ->
  0 <= p2 < 2 ^ 16 ->
  from_bytes (layout v p1 u p2 enc ++ payload)
  = Ok (init (PyInt v) (PyInt u)
             (PyStr (utf8_decode (rstrip_zeros (firstn 12 enc))))
             (PyInt p1) (PyInt p2)).
Proof.
  intros Hv Hp1 Hu Hp2.
  rewrite from_bytes_app by apply layout_length.
  unfold layout.
  rewrite from_bytes_packed
    by (rewrite ?le_bytes_length, ?length_app, ?repeat_length,
          ?length_firstn; lia).
  rewrite !le_value_le_bytes by (cbn; lia).
  rewrite rstrip_zeros_app_zeros. reflexivity.
Qed.

Lemma from_bytes_layout_text (v p1 u p2 : Z) (enc payload : bytes)
      (s1 : pystr) :
  0 <= v < 2 ^ 32 -> 0 <= p1 < 2 ^ 16 -> 0 <= u < 2 ^ 16 ->
  0 <= p2 < 2 ^ 16 ->
  utf8_encode s1 = Ok (firstn 12 enc) -> ends_with_NUL s1 = false ->
  from_bytes (layout v p1 u p2 enc ++ payload)
  = Ok (init (PyInt v) (PyInt u) (PyStr s1) (PyInt p1) (PyInt p2)).
Proof.
  intros Hv Hp1 Hu Hp2 He Hn.
  rewrite from_bytes_layout by assumption.
  rewrite rstrip_zeros_id by (apply (utf8_encode_last s1); assumption).
  rewrite (utf8_decode_encode s1 _ He). reflexivity.
Qed.

Lemma utf8_encode_app_inv (s1 s2 : pystr) :
  forall enc e1, utf8_encode (s1 ++ s2) = Ok enc -> utf8_encode s1 = Ok e1 ->
                 exists e2, utf8_encode s2 = Ok e2 /\ enc = e1 ++ e2.
Proof.
  induction s1 as [|c s1 IH]; intros enc e1 H H1.
  - cbn in H1. assert (e1 = []) by congruence. subst e1.
    exists enc. split; [exact H|reflexivity].
  - cbn [app] in H.
    apply utf8_encode_cons in H as (b & r & Hc & Hr & ->).
    apply utf8_encode_cons in H1 as (b' & r' & Hc' & Hr' & ->).
    assert (b' = b) by congruence. subst b'.
    destruct (IH r r' Hr Hr') as (e2 & He2 & ->).
    exists e2. split; [exact He2|]. rewrite app_assoc. reflexivity.
Qed.

(** X3. Truncation on a code-point boundary. When the callsign is a text
    [s1 ++ s2] whose part [s1] takes exactly 12 bytes of UTF-8 and does not
    end with U+0000, encoding the header and decoding the result gives the
    header with the callsign [s1]. *)
Theorem to_bytes_truncates_on_boundary (h : FMORawHeader) (s1 s2 : pystr)
        (e1 : bytes) :
  header_ok h = true ->
  callsign h = PyStr (s1 ++ s2) ->
  utf8_encode s1 = Ok e1 ->
  List.length e1 = CALLSIGN_SIZE ->
  ends_with_NUL s1 = false ->
  rbind (to_bytes h) from_bytes = Ok (setattr h "callsign" (PyStr s1)).
Proof.
  intros Hh Hc He Hl Hn.
  apply header_ok_fields in Hh
    as (v & p1 & u & p2 & s & -> & Hv & Hp1 & Hu & Hp2 & Hs).
  cbn [callsign init] in Hc. injection Hc as ->.
  destruct (utf8_encode_text _ Hs) as [enc Henc].
  destruct (utf8_encode_app_inv s1 s2 enc e1 Henc He) as (e2 & _ & ->).
  rewrite (to_bytes_ok v p1 u p2 (s1 ++ s2) (e1 ++ e2)) by assumption.
  cbn [rbind]. fold (layout v p1 u p2 (e1 ++ e2)).
  rewrite <- (app_nil_r (layout v p1 u p2 (e1 ++ e2))).
  rewrite (from_bytes_layout_text v p1 u p2 (e1 ++ e2) [] s1);
    try assumption; [reflexivity|].
  rewrite firstn_app, Hl. change (12 - CALLSIGN_SIZE)%nat with O.
  rewrite firstn_O, app_nil_r, firstn_all2 by (rewrite Hl; apply Nat.le_refl).
  exact He.
Qed.

Lemma to_bytes_truncates_on_boundary_witness :
  rbind (to_bytes (init (PyInt 1) (PyInt 100) (PyStr (repeat 65 20))
                        (PyInt 0) (PyInt 0)))
        from_bytes
  = Ok (init (PyInt 1) (PyInt 100) (PyStr (repeat 65 12))
             (PyInt 0) (PyInt 0)).
Proof.
  apply (to_bytes_truncates_on_boundary
           (init (PyInt 1) (PyInt 100) (PyStr (repeat 65 20))
                 (PyInt 0) (PyInt 0))
           (repeat 65 12) (repeat 65 8) (repeat x41 12)).
  - reflexivity.
  - reflexivity.
  - reflexivity.
  - reflexivity.
  - reflexivity.
Defined.

(** *** Rewriting a packet *)

Lemma le_bytes_le_value (bs : bytes) :
  le_bytes (List.length bs) (le_value bs) = bs.
Proof.
  induction bs as [|b t IH]; [reflexivity|].
  cbn [List.length le_value le_bytes].
  pose proof (byte_val_range b) as Hb. f_equal.
  - unfold byte_of_Z.
    replace ((byte_val b + 256 * le_value t) mod 256) with (byte_val b)
      by zdiv.
    fold (byte_of_Z (byte_val b)).
    replace (byte_val b) with (byte_val b mod 256) at 1
      by (apply Z.mod_small; lia).
    apply byte_of_Z_val.
  - replace ((byte_val b + 256 * le_value t) / 256) with (le_value t) by zdiv.
    exact IH.
Qed.

Lemma le_bytes_le_value_n (n : nat) (bs : bytes) :
  List.length bs = n -> le_bytes n (le_value bs) = bs.
Proof. intros <-. apply le_bytes_le_value. Qed.

Lemma firstn_skipn_app {A} (n m : nat) :
  forall l : list A, firstn n l ++ firstn m (skipn n l) = firstn (n + m) l.
Proof.
  induction n as [|n IH]; intros l; [reflexivity|].
  destruct l as [|a l]; cbn [firstn skipn app Nat.add].
  - rewrite firstn_nil. reflexivity.
  - f_equal. apply IH.
Qed.

Lemma slice_app (a b c : nat) (l : bytes) :
  (a <= b <= c)%nat -> slice a b l ++ slice b c l = slice a c l.
Proof.
  intros H. unfold slice.
  replace (skipn b l) with (skipn (b - a) (skipn a l))
    by (rewrite skipn_skipn; f_equal; lia).
  rewrite firstn_skipn_app. f_equal. lia.
Qed.

Lemma header_slices (data : bytes) :
  slice 0 4 data ++ slice 4 6 data ++ slice 6 8 data ++ slice 8 10 data
  ++ slice 10 22 data = firstn 22 data.
Proof.
  rewrite (slice_app 8 10 22), (slice_app 6 8 22), (slice_app 4 6 22),
    (slice_app 0 4 22) by lia.
  reflexivity.
Qed.

Lemma le_value_4 (bs : bytes) :
  List.length bs = 4%nat -> 0 <= le_value bs < 2 ^ 32.
Proof. intros H. pose proof (le_value_range bs) as R. rewrite H in R. exact R. Qed.

Lemma le_value_2 (bs : bytes) :
  List.length bs = 2%nat -> 0 <= le_value bs < 2 ^ 16.
Proof. intros H. pose proof (le_value_range bs) as R. rewrite H in R. exact R. Qed.

(** X4. Rewriting with no update gives the packet back, when its callsign
    field, without the zero bytes at its end, is the UTF-8 form of a
    text. *)
Theorem replace_header_without_updates (data : bytes) (s : pystr) :
  (HEADER_SIZE <= List.length data)%nat ->
  utf8_encode s = Ok (rstrip_zeros (slice 10 22 data)) ->
  replace_header_in_stream data [] = Ok data.
Proof.
  intros Hlen Hs. change HEADER_SIZE with 22%nat in Hlen.
  unfold replace_header_in_stream.
  rewrite from_bytes_long by exact Hlen. cbn [rbind apply_updates].
  unfold call_to_bytes, init. cbn [shadow lookup].
  fold (init (PyInt (le_value (slice 0 4 data)))
             (PyInt (le_value (slice 6 8 data)))
             (PyStr (utf8_decode (rstrip_zeros (slice 10 22 data))))
             (PyInt (le_value (slice 4 6 data)))
             (PyInt (le_value (slice 8 10 data)))).
  destruct (rstrip_zeros_spec (slice 10 22 data)) as [[pad Hpad] _].
  assert (Hf : List.length (slice 10 22 data) = 12%nat)
    by (rewrite slice_length; lia).
  pose proof Hf as Hf'. rewrite Hpad, length_app, repeat_length in Hf'.
  rewrite (utf8_decode_encode s _ Hs).
  rewrite (to_bytes_ok _ _ _ _ s _)
    by (try exact Hs; first [apply le_value_4|apply le_value_2];
        rewrite slice_length; lia).
  cbn [rbind]. f_equal.
  rewrite firstn_all2 by lia.
  replace (12 - List.length (rstrip_zeros (slice 10 22 data)))%nat
    with pad by lia.
  rewrite <- Hpad.
  rewrite !le_bytes_le_value_n by (rewrite slice_length; lia).
  change (skipn HEADER_SIZE data) with (skipn 22 data).
  rewrite header_slices. apply firstn_skipn.
Qed.

Lemma replace_header_without_updates_witness :
  replace_header_in_stream scenario_packet [] = Ok scenario_packet.
Proof.
  apply (replace_header_without_updates scenario_packet BD8BOJ).
  - vm_compute. lia.
  - reflexivity.
Defined.

Lemma lookup_app_last (key k : string) (v : pyval)
      (l : list (string * pyval)) :
  lookup key (l ++ [(k, v)])
  = match lookup key l with
    | Some x => Some x
    | None => if String.eqb key k then Some v else None
    end.
Proof.
  induction l as [|[k' v'] l IH]; cbn [app lookup]; [reflexivity|].
  destruct (String.eqb key k'); [reflexivity|exact IH].
Qed.

Lemma updated_cons (key k : string) (v old : pyval)
      (rest : list (string * pyval)) :
  updated key ((k, v) :: rest) old
  = updated key rest (if String.eqb key k then v else old).
Proof.
  unfold updated. cbn [rev]. rewrite lookup_app_last.
  destruct (lookup key (rev rest)); [reflexivity|].
  destruct (String.eqb key k); reflexivity.
Qed.

(** The five fields after [setattr] under a key that is one of them. *)
Lemma setattr_fields (h : FMORawHeader) (key : string) (value : pyval) :
  In key field_names ->
  version (setattr h key value)
  = (if String.eqb "version" key then value else version h) /\
  uid (setattr h key value)
  = (if String.eqb "uid" key then value else uid h) /\
  callsign (setattr h key value)
  = (if String.eqb "callsign" key then value else callsign h) /\
  padding1 (setattr h key value)
  = (if String.eqb "padding1" key then value else padding1 h) /\
  padding2 (setattr h key value)
  = (if String.eqb "padding2" key then value else padding2 h).
Proof.
  intros H. cbn [field_names In] in H.
  destruct H as [<-|[<-|[<-|[<-|[<-|[]]]]]]; repeat split.
Qed.

Lemma update_ok_key (key : string) (value : pyval) :
  update_ok (key, value) = true -> In key field_names.
Proof.
  unfold update_ok, field_names. cbn [In].
  destruct (String.eqb key "version") eqn:E1;
    [apply String.eqb_eq in E1; auto|].
  destruct (String.eqb key "uid") eqn:E2;
    [apply String.eqb_eq in E2; auto|].
  destruct (String.eqb key "callsign") eqn:E3;
    [apply String.eqb_eq in E3; auto|].
  destruct (String.eqb key "padding1") eqn:E4;
    [apply String.eqb_eq in E4; auto|].
  destruct (String.eqb key "padding2") eqn:E5;
    [apply String.eqb_eq in E5; auto 6|discriminate].
Qed.

(** The loop over well-typed updates: it ends, and each field then holds
    the value of the last update that names it. *)
Lemma apply_updates_updated (updates : list (string * pyval)) :
  forall h,
    header_ok h = true -> forallb update_ok updates = true ->
    exists h',
      apply_updates h updates = Ok h' /\ header_ok h' = true /\
      version h' = updated "version" updates (version h) /\
      uid h' = updated "uid" updates (uid h) /\
      callsign h' = updated "callsign" updates (callsign h) /\
      padding1 h' = updated "padding1" updates (padding1 h) /\
      padding2 h' = updated "padding2" updates (padding2 h).
Proof.
  induction updates as [|[key value] rest IH]; intros h Hh Hu.
  - exists h. repeat split; assumption.
  - cbn [forallb] in Hu. apply andb_true_iff in Hu as [Hu Hrest].
    destruct (setattr_ok h key value Hh Hu) as [Ha Hs].
    destruct (IH _ Hs Hrest) as (h' & Hrun & Hok & Hv & Hi & Hc & Hp1 & Hp2).
    destruct (setattr_fields h key value (update_ok_key key value Hu))
      as (Fv & Fi & Fc & Fp1 & Fp2).
    exists h'. cbn [apply_updates].
    rewrite Ha, (update_ok_not_refused key value Hu). cbn [negb].
    rewrite !updated_cons, <- Fv, <- Fi, <- Fc, <- Fp1, <- Fp2.
    repeat split; assumption.
Qed.

(** What [replace_header_in_stream] returns for well-typed updates: the
    layout of the updated fields, then the payload. *)
Lemma replace_header_layout (stream : bytes) (h : FMORawHeader)
      (updates : list (string * pyval)) :
  from_bytes stream = Ok h ->
  forallb update_ok updates = true ->
  exists v p1 u p2 s enc,
    updated "version" updates (version h) = PyInt v /\
    updated "padding1" updates (padding1 h) = PyInt p1 /\
    updated "uid" updates (uid h) = PyInt u /\
    updated "padding2" updates (padding2 h) = PyInt p2 /\
    updated "callsign" updates (callsign h) = PyStr s /\
    (0 <= v < 2 ^ 32 /\ 0 <= p1 < 2 ^ 16 /\ 0 <= u < 2 ^ 16 /\
     0 <= p2 < 2 ^ 16) /\
    utf8_encode s = Ok enc /\
    replace_header_in_stream stream updates
    = Ok (layout v p1 u p2 enc ++ skipn HEADER_SIZE stream).
Proof.
  intros Hh Hu.
  destruct (apply_updates_updated updates h (from_bytes_header_ok _ _ Hh) Hu)
    as (h' & Hrun & Hok & Hv & Hi & Hc & Hp1 & Hp2).
  apply header_ok_fields in Hok
    as (v & p1 & u & p2 & s & -> & Rv & Rp1 & Ru & Rp2 & Hs).
  destruct (utf8_encode_text s Hs) as [enc He].
  exists v, p1, u, p2, s, enc. cbn [version uid callsign padding1 padding2 init] in *.
  repeat split; try congruence; try lia.
  unfold replace_header_in_stream. rewrite Hh. cbn [rbind]. rewrite Hrun.
  cbn [rbind]. unfold call_to_bytes, init. cbn [shadow lookup].
  fold (init (PyInt v) (PyInt u) (PyStr s) (PyInt p1) (PyInt p2)).
  rewrite (to_bytes_ok v p1 u p2 s enc) by assumption. reflexivity.
Qed.

(** X5. Decoding a rewritten packet. For updates that give the five fields
    values of their types, the packet that [replace_header_in_stream]
    returns decodes to a header whose four integer fields are those of the
    input, each replaced by the value of the last update that names it. *)
Theorem rewritten_packet_decodes (stream : bytes) (h : FMORawHeader)
        (updates : list (string * pyval)) :
  from_bytes stream = Ok h ->
  forallb update_ok updates = true ->
  exists out h',
    replace_header_in_stream stream updates = Ok out /\
    from_bytes out = Ok h' /\
    version h' = updated "version" updates (version h) /\
    uid h' = updated "uid" updates (uid h) /\
    padding1 h' = updated "padding1" updates (padding1 h) /\
    padding2 h' = updated "padding2" updates (padding2 h).
Proof.
  intros Hh Hu.
  destruct (replace_header_layout stream h updates Hh Hu)
    as (v & p1 & u & p2 & s & enc & -> & -> & -> & -> & _ &
        (Rv & Rp1 & Ru & Rp2) & _ & ->).
  eexists _, _. split; [reflexivity|].
  split; [apply from_bytes_layout; assumption|]. repeat split.
Qed.

Lemma rewritten_packet_decodes_witness :
  exists out h',
    replace_header_in_stream scenario_packet [("uid"%string, PyInt 9999)]
    = Ok out /\
    from_bytes out = Ok h' /\
    version h' = PyInt 1 /\ uid h' = PyInt 9999 /\
    padding1 h' = PyInt 0 /\ padding2 h' = PyInt 0.
Proof.
  apply (rewritten_packet_decodes scenario_packet
           (init (PyInt 1) (PyInt 441) (PyStr BD8BOJ) (PyInt 0) (PyInt 0))
           [("uid"%string, PyInt 9999)]).
  - reflexivity.
  - reflexivity.
Defined.

(** X6. The callsign of a rewritten packet. When, after well-typed updates,
    the callsign is a text of at most 12 bytes of UTF-8 that does not end
    with U+0000, the rewritten packet decodes to that callsign. *)
Theorem rewritten_packet_callsign (stream : bytes) (h : FMORawHeader)
        (updates : list (string * pyval)) (s : pystr) (enc : bytes) :
  from_bytes stream = Ok h ->
  forallb update_ok updates = true ->
  updated "callsign" updates (callsign h) = PyStr s ->
  utf8_encode s = Ok enc ->
  (List.length enc <= CALLSIGN_SIZE)%nat ->
  ends_with_NUL s = false ->
  exists out h',
    replace_header_in_stream stream updates = Ok out /\
    from_bytes out = Ok h' /\
    callsign h' = PyStr s.
Proof.
  intros Hh Hu Hc He Hl Hn.
  destruct (replace_header_layout stream h updates Hh Hu)
    as (v & p1 & u & p2 & s' & enc' & _ & _ & _ & _ & Hc' &
        (Rv & Rp1 & Ru & Rp2) & He' & ->).
  assert (s' = s) by congruence. subst s'.
  assert (enc' = enc) by congruence. subst enc'.
  eexists _, _. split; [reflexivity|].
  split;
    [apply (from_bytes_layout_text v p1 u p2 enc _ s);
     [exact Rv|exact Rp1|exact Ru|exact Rp2
     |rewrite firstn_all2 by exact Hl; exact He|exact Hn]
    |reflexivity].
Qed.

Lemma rewritten_packet_callsign_witness :
  exists out h',
    replace_header_in_stream scenario_packet echo_updates = Ok out /\
    from_bytes out = Ok h' /\
    callsign h' = PyStr RE_BD8BOJ.
Proof.
  apply (rewritten_packet_callsign scenario_packet
           (init (PyInt 1) (PyInt 441) (PyStr BD8BOJ) (PyInt 0) (PyInt 0))
           echo_updates RE_BD8BOJ
           [x52; x45; x3e; x42; x44; x38; x42; x4f; x4a]).
  - reflexivity.
  - reflexivity.
  - reflexivity.
  - reflexivity.
  - unfold CALLSIGN_SIZE. cbn [List.length]. lia.
  - reflexivity.
Defined.

Import Header EchoService HeaderMore ServiceRun.

(** ** More of the echo service *)

Lemma to_bytes_Ok_inv (v u p1 p2 : Z) (s : pystr) (bs : bytes) :
  to_bytes (init (PyInt v) (PyInt u) (PyStr s) (PyInt p1) (PyInt p2)) = Ok bs ->
  (0 <= v < 2 ^ 32 /\ 0 <= p1 < 2 ^ 16 /\ 0 <= u < 2 ^ 16 /\
   0 <= p2 < 2 ^ 16) /\
  exists enc, utf8_encode s = Ok enc /\ bs = layout v p1 u p2 enc.
Proof.
  intros H.
  destruct (forallb is_scalar s) eqn:Hs.
  2:{ unfold to_bytes, init in H. cbn [callsign encode_callsign] in H.
      rewrite (utf8_encode_not_text s Hs) in H. discriminate. }
  destruct (utf8_encode_text s Hs) as [enc He].
  destruct (fits 4 (PyInt v) && fits 2 (PyInt p1) && fits 2 (PyInt u)
            && fits 2 (PyInt p2)) eqn:Hf.
  2:{ rewrite (to_bytes_struct_error v p1 u p2 s enc He Hf) in H.
      discriminate. }
  apply andb_true_iff in Hf as [Hf H4]. apply andb_true_iff in Hf as [Hf H3].
  apply andb_true_iff in Hf as [Hf H2].
  pose proof (fits_range 4 v Hf) as Rv. pose proof (fits_range 2 p1 H2) as Rp1.
  pose proof (fits_range 2 u H3) as Ru. pose proof (fits_range 2 p2 H4) as Rp2.
  split; [repeat split; first [apply Rv|apply Rp1|apply Ru|apply Rp2]|].
  exists enc. split; [exact He|].
  rewrite (to_bytes_ok v p1 u p2 s enc Rv Rp1 Ru Rp2 He) in H.
  unfold layout. congruence.
Qed.

Section ServiceMore.

Variable broker : list (string * bytes) -> string -> bytes -> result Z.
Variable cfg : config.

(** What [outbound] computes on a packet that parses: the result of
    [to_bytes] on the header with the relay's uid and the prefixed
    callsign, followed by the payload. *)
Lemma outbound_long (msg : bytes) :
  (HEADER_SIZE <= List.length msg)%nat ->
  outbound cfg msg
  = rbind (to_bytes
             (init (PyInt (le_value (slice 0 4 msg)))
                   (PyInt (echo_uid cfg))
                   (PyStr (echo_callsign_prefix cfg
                           ++ utf8_decode (rstrip_zeros (slice 10 22 msg))))
                   (PyInt (le_value (slice 4 6 msg)))
                   (PyInt (le_value (slice 8 10 msg)))))
          (fun new_header => Ok (new_header ++ skipn HEADER_SIZE msg)).
Proof.
  intros H. unfold outbound, replace_header_in_stream.
  rewrite (from_bytes_long msg H). reflexivity.
Qed.

Lemma outbound_short (msg : bytes) :
  (List.length msg < HEADER_SIZE)%nat -> outbound cfg msg = Raise ValueError.
Proof.
  intros H. unfold outbound. rewrite (from_bytes_short msg H). reflexivity.
Qed.

Lemma pyval_eqb_refl_int (z : Z) : pyval_eqb (PyInt z) (PyInt z) = true.
Proof. cbn. apply Z.eqb_refl. Qed.

(** Every packet that the replay builds keeps the length and the payload
    of the buffered one, parses, and carries the relay's uid. *)
Lemma outbound_Ok_inv (msg out : bytes) :
  outbound cfg msg = Ok out ->
  List.length out = List.length msg /\
  skipn HEADER_SIZE out = skipn HEADER_SIZE msg /\
  marked cfg out = true.
Proof.
  intros H.
  destruct (Nat.lt_ge_cases (List.length msg) HEADER_SIZE) as [Hs|Hl].
  { rewrite (outbound_short msg Hs) in H. discriminate. }
  rewrite (outbound_long msg Hl) in H.
  match type of H with
  | rbind (to_bytes ?h) _ = _ => destruct (to_bytes h) as [nh|] eqn:E
  end; cbn [rbind] in H; [|discriminate].
  apply to_bytes_Ok_inv in E as ((Rv & Rp1 & Ru & Rp2) & enc & He & ->).
  assert (out = layout (le_value (slice 0 4 msg)) (le_value (slice 4 6 msg))
                       (echo_uid cfg) (le_value (slice 8 10 msg)) enc
                ++ skipn HEADER_SIZE msg) by congruence.
  subst out. split; [|split].
  - rewrite length_app, layout_length, length_skipn.
    change HEADER_SIZE with 22%nat in *. lia.
  - rewrite skipn_app, layout_length. change (HEADER_SIZE - 22)%nat with O.
    rewrite skipn_all2 by (rewrite layout_length; apply Nat.le_refl).
    reflexivity.
  - unfold marked. rewrite from_bytes_layout by assumption.
    cbn [uid init]. apply pyval_eqb_refl_int.
Qed.


(** *** Deliveries *)

Lemma on_message_accepted (st : service) (now : Z) (payload : bytes) :
  accepted cfg payload = true ->
  exists record,
    _on_message cfg now payload st
    = (Ok tt,
       mkService (message_buffer st ++ [payload]) (Some now)
                 (publish_calls st) (log st ++ [record])) /\
    level_of record = DEBUG.
Proof.
  unfold accepted, EchoService._on_message, try_except, bind, lift.
  destruct (from_bytes payload) as [h|]; [|discriminate].
  intros H. apply negb_true_iff in H. rewrite H.
  eexists. split; [reflexivity|reflexivity].
Qed.

Lemma on_message_rejected (st : service) (now : Z) (payload : bytes) :
  accepted cfg payload = false ->
  exists record,
    _on_message cfg now payload st
    = (Ok tt,
       mkService (message_buffer st) (last_message_time st)
                 (publish_calls st) (log st ++ [record])).
Proof.
  unfold accepted, EchoService._on_message, try_except, bind, lift, logger.
  destruct (from_bytes payload) as [h|e].
  - intros H. apply negb_false_iff in H. rewrite H.
    eexists. reflexivity.
  - intros _. eexists. reflexivity.
Qed.

Lemma marked_not_accepted (payload : bytes) :
  marked cfg payload = true -> accepted cfg payload = false.
Proof.
  unfold marked, accepted. destruct (from_bytes payload); [|reflexivity].
  intros ->. reflexivity.
Qed.

(** X7. A poll within the quiet period of the latest accepted packet
    changes nothing, however old the packets before it are: every accept
    restarts the quiet period. *)
Theorem accept_postpones_replay (st : service) (accepted_at now : Z)
        (payload : bytes) :
  accepted cfg payload = true ->
  now - accepted_at <= echo_timeout cfg ->
  let st' := snd (_on_message cfg accepted_at payload st) in
  message_buffer st' = message_buffer st ++ [payload] /\
  _check_timeout broker cfg now st' = (Ok tt, st').
Proof.
  intros Ha Hle.
  destruct (on_message_accepted st accepted_at payload Ha) as (r & -> & _).
  cbv zeta. cbn [snd]. split; [reflexivity|].
  apply (check_timeout_waits broker cfg _ now accepted_at);
    [reflexivity|exact Hle].
Qed.

(** *** Sequences of deliveries and polls *)

Lemma check_timeout_state (st : service) (now : Z) :
  exists new_calls new_log,
    snd (_check_timeout broker cfg now st)
    = (if timed_out cfg now st
       then mkService [] None (publish_calls st ++ new_calls)
                      (log st ++ new_log)
       else st) /\
    (timed_out cfg now st = true ->
     new_calls = flat_map (attempted cfg) (message_buffer st)).
Proof.
  unfold timed_out.
  destruct (last_message_time st) as [last|] eqn:Hlast.
  2:{ exists [], []. rewrite check_timeout_idle by exact Hlast.
      split; [reflexivity|discriminate]. }
  destruct (now - last >? echo_timeout cfg) eqn:Hgt.
  - destruct (check_timeout_fires broker cfg st now last Hlast)
      as (new_log & -> & _); [lia|].
    eexists _, new_log. split; reflexivity.
  - exists [], [].
    rewrite (check_timeout_waits broker cfg st now last Hlast) by lia.
    split; [reflexivity|discriminate].
Qed.

Lemma on_message_state (st : service) (now : Z) (payload : bytes) :
  exists record,
    snd (_on_message cfg now payload st)
    = (if accepted cfg payload
       then mkService (message_buffer st ++ [payload]) (Some now)
                      (publish_calls st) (log st ++ [record])
       else mkService (message_buffer st) (last_message_time st)
                      (publish_calls st) (log st ++ [record])).
Proof.
  destruct (accepted cfg payload) eqn:Ha.
  - destruct (on_message_accepted st now payload Ha) as (r & -> & _).
    exists r. reflexivity.
  - destruct (on_message_rejected st now payload Ha) as (r & ->).
    exists r. reflexivity.
Qed.

Lemma attempted_marked (items : list bytes) :
  Forall (fun call => fst call = topics_publish cfg /\
                      marked cfg (snd call) = true)
         (flat_map (attempted cfg) items).
Proof.
  induction items as [|msg rest IH]; [constructor|].
  cbn [flat_map]. apply Forall_app. split; [|exact IH].
  unfold attempted. destruct (outbound cfg msg) as [out|] eqn:E;
    [|constructor].
  constructor; [|constructor]. split; [reflexivity|].
  apply (outbound_Ok_inv msg out E).
Qed.

Lemma step_reachable_ok (s : service) (e : event) :
  reachable_ok cfg s -> reachable_ok cfg (step broker cfg s e).
Proof.
  intros (Hc & Hb & Hp). destruct e as [now payload|now]; cbn [step].
  - destruct (on_message_state s now payload) as [r ->].
    destruct (accepted cfg payload) eqn:Ha.
    + split; [|split]; cbn [message_buffer publish_calls].
      * unfold coherent. cbn [message_buffer last_message_time].
        destruct (message_buffer s); reflexivity.
      * apply Forall_app. split; [exact Hb|]. constructor; [exact Ha|constructor].
      * exact Hp.
    + split; [|split]; cbn [message_buffer publish_calls]; assumption.
  - destruct (check_timeout_state s now) as (calls & lg & -> & Hcalls).
    destruct (timed_out cfg now s) eqn:Ht.
    + split; [|split]; cbn [message_buffer publish_calls].
      * reflexivity.
      * constructor.
      * apply Forall_app. split; [exact Hp|]. rewrite (Hcalls eq_refl).
        apply attempted_marked.
    + split; [|split]; assumption.
Qed.

Lemma run_reachable_ok (events : list event) :
  forall s, reachable_ok cfg s -> reachable_ok cfg (run_events broker cfg events s).
Proof.
  induction events as [|e events IH]; intros s H; [exact H|].
  cbn [run_events fold_left]. apply IH. apply step_reachable_ok. exact H.
Qed.

Lemma initial_reachable_ok : reachable_ok cfg initial_service.
Proof. split; [reflexivity|]. split; constructor. Qed.


(** X8. Whatever is delivered and whenever the poll runs, the service is
    either idle, with an empty buffer and no timestamp, or accumulating,
    with both; and every packet in its buffer parses and carries a uid
    other than the relay's. *)
Theorem service_stays_coherent (events : list event) :
  let s := run_events broker cfg events initial_service in
  coherent s = true /\
  Forall (fun p => accepted cfg p = true) (message_buffer s).
Proof.
  destruct (run_reachable_ok events _ initial_reachable_ok) as (Hc & Hb & _).
  split; assumption.
Qed.

(** X9. Loop prevention, end to end. Every packet the service has handed
    to [publish] went to the configured topic, and if it comes back to
    [_on_message], in any state, the buffer and the timestamp stay as
    they are. *)
Theorem published_packets_are_never_buffered (events : list event)
        (call : string * bytes) (st : service) (now : Z) :
  In call (publish_calls (run_events broker cfg events initial_service)) ->
  fst call = topics_publish cfg /\
  message_buffer (snd (_on_message cfg now (snd call) st))
  = message_buffer st /\
  last_message_time (snd (_on_message cfg now (snd call) st))
  = last_message_time st.
Proof.
  intros Hin.
  destruct (run_reachable_ok events _ initial_reachable_ok) as (_ & _ & Hp).
  rewrite Forall_forall in Hp. destruct (Hp call Hin) as [Ht Hm].
  split; [exact Ht|].
  destruct (on_message_rejected st now (snd call) (marked_not_accepted _ Hm))
    as (r & ->).
  split; reflexivity.
Qed.

Lemma run_events_app (events1 events2 : list event) (s : service) :
  run_events broker cfg (events1 ++ events2) s
  = run_events broker cfg events2 (run_events broker cfg events1 s).
Proof. unfold run_events. apply fold_left_app. Qed.

Lemma run_conserves (events : list event) :
  forall s,
    publish_calls (run_events broker cfg events s)
    ++ flat_map (attempted cfg) (message_buffer (run_events broker cfg events s))
    = publish_calls s
      ++ flat_map (attempted cfg)
           (message_buffer s ++ filter (accepted cfg) (deliveries events)).
Proof.
  induction events as [|e events IH]; intros s.
  - cbn. rewrite app_nil_r. reflexivity.
  - change (run_events broker cfg (e :: events) s)
      with (run_events broker cfg events (step broker cfg s e)).
    rewrite IH. clear IH. destruct e as [now payload|now]; cbn [step].
    + destruct (on_message_state s now payload) as [r ->].
      change (deliveries (Deliver now payload :: events))
        with (payload :: deliveries events).
      cbn [filter].
      destruct (accepted cfg payload); cbn [publish_calls message_buffer].
      * rewrite <- app_assoc. reflexivity.
      * reflexivity.
    + destruct (check_timeout_state s now) as (calls & lg & -> & Hcalls).
      change (deliveries (Poll now :: events)) with (deliveries events).
      destruct (timed_out cfg now s); [|reflexivity].
      cbn [publish_calls message_buffer]. rewrite (Hcalls eq_refl).
      rewrite !flat_map_app, <- !app_assoc. reflexivity.
Qed.

(** X10. Nothing is published twice, out of order, or from nowhere. At any
    time, the packets handed to [publish] so far, followed by what the
    replay would hand over for the buffer, are what the replay builds for
    the accepted deliveries, one by one in order of arrival. *)
Theorem accepted_packets_are_replayed_in_order (events : list event) :
  let s := run_events broker cfg events initial_service in
  publish_calls s ++ flat_map (attempted cfg) (message_buffer s)
  = flat_map (attempted cfg) (filter (accepted cfg) (deliveries events)).
Proof. cbv zeta. rewrite run_conserves. reflexivity. Qed.


(** *** What a replay reports *)

Lemma replay_loop_all_fail (items : list bytes) :
  (forall msg, In msg items -> exists e, outbound cfg msg = Raise e) ->
  forall total i s f st,
    fst (replay_loop broker cfg total i items (s, f) st)
    = Ok (s, (f + List.length items)%nat).
Proof.
  induction items as [|msg rest IH]; intros Hall total i s f st.
  - cbn. f_equal. f_equal. lia.
  - cbn [replay_loop]. unfold bind at 1.
    destruct (replay_one_run broker cfg total i msg s f st)
      as (c1 & r & -> & _ & D & S1).
    assert (c1 = (s, S f)) as ->.
    { destruct D as [D|D]; [|exact D].
      apply S1 in D as (m & Hm & _).
      destruct (Hall msg (or_introl eq_refl)) as [e He]. congruence. }
    rewrite IH by (intros m Hm; apply Hall; right; exact Hm).
    cbn [List.length]. f_equal. f_equal. lia.
Qed.

Lemma replay_loop_all_succeed (items : list bytes) :
  (forall msg, In msg items -> exists out, outbound cfg msg = Ok out) ->
  (forall calls topic payload,
      broker calls topic payload = Ok MQTT_ERR_SUCCESS) ->
  forall total i s f st,
    fst (replay_loop broker cfg total i items (s, f) st)
    = Ok ((s + List.length items)%nat, f).
Proof.
  induction items as [|msg rest IH]; intros Hall Hb total i s f st.
  - cbn. f_equal. f_equal. lia.
  - cbn [replay_loop]. unfold bind at 1.
    destruct (replay_one_run broker cfg total i msg s f st)
      as (c1 & r & -> & _ & _ & S1).
    assert (c1 = (S s, f)) as ->.
    { apply S1. destruct (Hall msg (or_introl eq_refl)) as [out Ho].
      exists out. split; [exact Ho|apply Hb]. }
    rewrite IH by (try exact Hb; intros m Hm; apply Hall; right; exact Hm).
    cbn [List.length]. f_equal. f_equal. lia.
Qed.

Lemma flat_map_attempted_fail (items : list bytes) :
  (forall msg, In msg items -> exists e, outbound cfg msg = Raise e) ->
  flat_map (attempted cfg) items = [].
Proof.
  induction items as [|msg rest IH]; intros Hall; [reflexivity|].
  cbn [flat_map]. rewrite IH by (intros m Hm; apply Hall; right; exact Hm).
  unfold attempted. destruct (Hall msg (or_introl eq_refl)) as [e ->].
  reflexivity.
Qed.

Lemma outbound_bad_uid (msg : bytes) :
  fits UID_SIZE (PyInt (echo_uid cfg)) = false ->
  exists e, outbound cfg msg = Raise e.
Proof.
  intros Hu. destruct (outbound cfg msg) as [out|e] eqn:E; [|exists e; reflexivity].
  exfalso.
  destruct (Nat.lt_ge_cases (List.length msg) HEADER_SIZE) as [Hs|Hl].
  { rewrite (outbound_short msg Hs) in E. discriminate. }
  rewrite (outbound_long msg Hl) in E.
  match type of E with
  | rbind (to_bytes ?h) _ = _ => destruct (to_bytes h) as [nh|] eqn:T
  end; cbn [rbind] in E; [|discriminate].
  apply to_bytes_Ok_inv in T as ((_ & _ & Ru & _) & _).
  cbn [fits] in Hu. change (2 ^ (8 * Z.of_nat UID_SIZE)) with (2 ^ 16) in Hu.
  lia.
Qed.

Lemma accepted_long (payload : bytes) :
  accepted cfg payload = true -> (HEADER_SIZE <= List.length payload)%nat.
Proof.
  unfold accepted. destruct (from_bytes payload) as [h|] eqn:E;
    [|discriminate].
  intros _. apply (from_bytes_Ok_length payload h E).
Qed.

Lemma forallb_app_true {A} (f : A -> bool) (l1 l2 : list A) :
  forallb f l1 = true -> forallb f l2 = true -> forallb f (l1 ++ l2) = true.
Proof. intros H1 H2. rewrite forallb_app, H1, H2. reflexivity. Qed.

Lemma outbound_config_ok (msg : bytes) :
  config_ok cfg = true ->
  (HEADER_SIZE <= List.length msg)%nat ->
  exists out, outbound cfg msg = Ok out.
Proof.
  unfold config_ok. intros Hc Hl. apply andb_true_iff in Hc as [Hu Hp].
  rewrite (outbound_long msg Hl).
  assert (Ht : forallb is_scalar
                 (echo_callsign_prefix cfg
                  ++ utf8_decode (rstrip_zeros (slice 10 22 msg))) = true)
    by (apply forallb_app_true;
        [exact Hp|apply forallb_scalar, utf8_decode_scalar]).
  destruct (utf8_encode_text _ Ht) as [enc He].
  change HEADER_SIZE with 22%nat in Hl.
  rewrite (to_bytes_ok _ _ _ _ _ enc);
    [cbn [rbind]; eexists; reflexivity| | | | |exact He].
  - apply le_value_4. rewrite slice_length; lia.
  - apply le_value_2. rewrite slice_length; lia.
  - exact (fits_range 2 _ Hu).
  - apply le_value_2. rewrite slice_length; lia.
Qed.

Lemma map_flat_map_attempted {B} (g : bytes -> B) (items : list bytes) :
  (forall msg, In msg items -> exists out, outbound cfg msg = Ok out) ->
  (forall msg out, outbound cfg msg = Ok out -> g out = g msg) ->
  map (fun call => g (snd call)) (flat_map (attempted cfg) items)
  = map g items.
Proof.
  intros Hall Hg. induction items as [|msg rest IH]; [reflexivity|].
  cbn [flat_map map]. rewrite map_app.
  rewrite IH by (intros m Hm; apply Hall; right; exact Hm).
  unfold attempted. destruct (Hall msg (or_introl eq_refl)) as [out Ho].
  rewrite Ho. cbn [map snd app]. rewrite (Hg msg out Ho). reflexivity.
Qed.

(** X11. A replay that loses nothing. When the relay's uid fits its field,
    the prefix is a text, the buffer holds packets that [_on_message]
    accepted and the transport accepts every message, the timeout
    publishes one packet for each buffered packet, in order and with the
    payload of each unchanged, and reports all of them as succeeded. *)
Theorem replay_publishes_every_packet (st : service) (now last : Z) :
  config_ok cfg = true ->
  (forall calls topic payload,
      broker calls topic payload = Ok MQTT_ERR_SUCCESS) ->
  Forall (fun p => accepted cfg p = true) (message_buffer st) ->
  last_message_time st = Some last ->
  now - last > echo_timeout cfg ->
  message_buffer st <> [] ->
  let n := List.length (message_buffer st) in
  exists published records,
    _check_timeout broker cfg now st
    = (Ok tt,
       mkService [] None (publish_calls st ++ published)
         (log st ++ TimeoutDetected (now - last) n
                    :: records ++ [ReplayDone n 0 n])) /\
    map (fun call => skipn HEADER_SIZE (snd call)) published
    = map (skipn HEADER_SIZE) (message_buffer st) /\
    map (fun call => List.length (snd call)) published
    = map (@List.length byte) (message_buffer st).
Proof.
  intros Hc Hb Hacc Hlast Hgt Hne n.
  assert (Hall : forall msg, In msg (message_buffer st) ->
                             exists out, outbound cfg msg = Ok out).
  { intros msg Hin. apply (outbound_config_ok msg Hc).
    apply accepted_long. rewrite Forall_forall in Hacc. apply Hacc, Hin. }
  destruct (check_timeout_fires broker cfg st now last Hlast Hgt)
    as (new_log & Hrun & _ & Hfull).
  destruct (Hfull Hne) as (records & s & f & -> & _ & _ & Hloop).
  rewrite (replay_loop_all_succeed _ Hall Hb) in Hloop.
  injection Hloop as <- <-.
  exists (flat_map (attempted cfg) (message_buffer st)), records.
  split; [exact Hrun|]. split.
  - apply (map_flat_map_attempted (skipn HEADER_SIZE) _ Hall).
    intros msg out Ho. apply (outbound_Ok_inv msg out Ho).
  - apply (map_flat_map_attempted (@List.length byte) _ Hall).
    intros msg out Ho. apply (outbound_Ok_inv msg out Ho).
Qed.

(** X12. A relay uid that does not fit the 16-bit field. Every turn of the
    replay then fails before [publish] is called: the timeout publishes
    nothing, reports every packet as failed, and still empties the
    buffer. *)
Theorem replay_with_unfit_uid_publishes_nothing (st : service)
        (now last : Z) :
  fits UID_SIZE (PyInt (echo_uid cfg)) = false ->
  last_message_time st = Some last ->
  now - last > echo_timeout cfg ->
  message_buffer st <> [] ->
  let n := List.length (message_buffer st) in
  exists records,
    _check_timeout broker cfg now st
    = (Ok tt,
       mkService [] None (publish_calls st)
         (log st ++ TimeoutDetected (now - last) n
                    :: records ++ [ReplayDone 0 n n])).
Proof.
  intros Hu Hlast Hgt Hne n.
  assert (Hall : forall msg, In msg (message_buffer st) ->
                             exists e, outbound cfg msg = Raise e)
    by (intros msg _; apply (outbound_bad_uid msg Hu)).
  destruct (check_timeout_fires broker cfg st now last Hlast Hgt)
    as (new_log & Hrun & _ & Hfull).
  destruct (Hfull Hne) as (records & s & f & -> & _ & _ & Hloop).
  rewrite (replay_loop_all_fail _ Hall) in Hloop.
  injection Hloop as <- <-.
  exists records. rewrite Hrun.
  rewrite (flat_map_attempted_fail _ Hall), app_nil_r. reflexivity.
Qed.


(** X13. What the relay publishes for a packet. When the relay's uid fits
    and the prefix followed by the packet's callsign is a text of at most
    12 bytes of UTF-8 that does not end with U+0000, the packet built for
    [publish] decodes to the relay's uid and to that prefixed callsign,
    with the version and the two reserved fields of the original, and has
    the payload of the original. *)
Theorem outbound_relabels_packet (msg : bytes) (h : FMORawHeader)
        (cs : pystr) (enc : bytes) :
  from_bytes msg = Ok h ->
  callsign h = PyStr cs ->
  fits UID_SIZE (PyInt (echo_uid cfg)) = true ->
  utf8_encode (echo_callsign_prefix cfg ++ cs) = Ok enc ->
  (List.length enc <= CALLSIGN_SIZE)%nat ->
  ends_with_NUL (echo_callsign_prefix cfg ++ cs) = false ->
  exists out,
    outbound cfg msg = Ok out /\
    from_bytes out
    = Ok (init (version h) (PyInt (echo_uid cfg))
               (PyStr (echo_callsign_prefix cfg ++ cs))
               (padding1 h) (padding2 h)) /\
    skipn HEADER_SIZE out = skipn HEADER_SIZE msg.
Proof.
  intros Hh Hc Hu He Hl Hn.
  pose proof (from_bytes_Ok_length msg h Hh) as Hlen.
  rewrite (from_bytes_long msg Hlen) in Hh. injection Hh as <-.
  cbn [callsign init] in Hc. injection Hc as <-.
  rewrite (outbound_long msg Hlen). change HEADER_SIZE with 22%nat in Hlen.
  cbn [version padding1 padding2 init].
  rewrite (to_bytes_ok _ _ _ _ _ enc);
    [|apply le_value_4; rewrite slice_length; lia
     |apply le_value_2; rewrite slice_length; lia
     |exact (fits_range 2 _ Hu)
     |apply le_value_2; rewrite slice_length; lia
     |exact He].
  cbn [rbind]. eexists. split; [reflexivity|].
  match goal with
  | |- context [le_bytes 4 ?v ++ le_bytes 2 ?p1 ++ le_bytes 2 ?u
                ++ le_bytes 2 ?p2 ++ _] =>
      fold (layout v p1 u p2 enc)
  end.
  split.
  - apply from_bytes_layout_text;
      [apply le_value_4; rewrite slice_length; lia
      |apply le_value_2; rewrite slice_length; lia
      |exact (fits_range 2 _ Hu)
      |apply le_value_2; rewrite slice_length; lia
      |rewrite firstn_all2 by exact Hl; exact He
      |exact Hn].
  - rewrite skipn_app, layout_length. change (HEADER_SIZE - 22)%nat with O.
    rewrite skipn_all2 by (rewrite layout_length; apply Nat.le_refl).
    reflexivity.
Qed.

End ServiceMore.

Lemma accept_postpones_replay_witness :
  message_buffer
    (snd (_on_message scenario_config 10 scenario_packet accumulating_service))
  = [scenario_packet; scenario_packet] /\
  _check_timeout always_accepts scenario_config 15
    (snd (_on_message scenario_config 10 scenario_packet accumulating_service))
  = (Ok tt,
     snd (_on_message scenario_config 10 scenario_packet accumulating_service)).
Proof.
  apply (accept_postpones_replay always_accepts scenario_config
           accumulating_service 10 15 scenario_packet).
  - reflexivity.
  - cbn. lia.
Defined.

Lemma published_packets_are_never_buffered_witness :
  fst ("FMO/RAW"%string, echoed_packet) = topics_publish scenario_config /\
  message_buffer
    (snd (_on_message scenario_config 9 echoed_packet accumulating_service))
  = message_buffer accumulating_service /\
  last_message_time
    (snd (_on_message scenario_config 9 echoed_packet accumulating_service))
  = last_message_time accumulating_service.
Proof.
  apply (published_packets_are_never_buffered always_accepts scenario_config
           [Deliver 0 scenario_packet; Poll 6]
           ("FMO/RAW"%string, echoed_packet) accumulating_service 9).
  vm_compute. left. reflexivity.
Defined.

Lemma replay_publishes_every_packet_witness :
  exists published records,
    _check_timeout always_accepts scenario_config 6 three_queued
    = (Ok tt,
       mkService [] None ([] ++ published)
         ([] ++ TimeoutDetected 6 3 :: records ++ [ReplayDone 3 0 3])) /\
    map (fun call => skipn HEADER_SIZE (snd call)) published
    = map (skipn HEADER_SIZE) (message_buffer three_queued) /\
    map (fun call => List.length (snd call)) published
    = map (@List.length byte) (message_buffer three_queued).
Proof.
  apply (replay_publishes_every_packet always_accepts scenario_config
           three_queued 6 0).
  - reflexivity.
  - reflexivity.
  - repeat constructor.
  - reflexivity.
  - cbn. lia.
  - discriminate.
Defined.

Lemma replay_with_unfit_uid_publishes_nothing_witness :
  exists records,
    _check_timeout always_accepts unfit_config 6 three_queued
    = (Ok tt,
       mkService [] None []
         ([] ++ TimeoutDetected 6 3 :: records ++ [ReplayDone 0 3 3])).
Proof.
  apply (replay_with_unfit_uid_publishes_nothing always_accepts unfit_config
           three_queued 6 0).
  - reflexivity.
  - reflexivity.
  - cbn. lia.
  - discriminate.
Defined.

Lemma outbound_relabels_packet_witness :
  exists out,
    outbound scenario_config scenario_packet = Ok out /\
    from_bytes out
    = Ok (init (PyInt 1) (PyInt 65535) (PyStr RE_BD8BOJ)
               (PyInt 0) (PyInt 0)) /\
    skipn HEADER_SIZE out = skipn HEADER_SIZE scenario_packet.
Proof.
  apply (outbound_relabels_packet scenario_config scenario_packet
           (init (PyInt 1) (PyInt 441) (PyStr BD8BOJ) (PyInt 0) (PyInt 0))
           BD8BOJ [x52; x45; x3e; x42; x44; x38; x42; x4f; x4a]).
  - reflexivity.
  - reflexivity.
  - reflexivity.
  - reflexivity.
  - unfold CALLSIGN_SIZE. cbn [List.length]. lia.
  - reflexivity.
Defined.

Import Header Config.

(** ** [config.py] *)

(** *** Dictionaries *)

Lemma dict_get_set_same (key : string) (value : pyobj) (d : dict) :
  dict_get key (dict_set key value d) = Some value.
Proof.
  induction d as [|[k v] d IH]; cbn [dict_set dict_get].
  - rewrite String.eqb_refl. reflexivity.
  - destruct (String.eqb key k) eqn:E; cbn [dict_get]; rewrite E;
      [reflexivity|exact IH].
Qed.

Lemma dict_get_set_other (key key' : string) (value : pyobj) (d : dict) :
  key <> key' ->
  dict_get key (dict_set key' value d) = dict_get key d.
Proof.
  intros Hne. induction d as [|[k v] d IH]; cbn [dict_set dict_get].
  - replace (String.eqb key key') with false
      by (symmetry; apply String.eqb_neq; exact Hne).
    reflexivity.
  - destruct (String.eqb key' k) eqn:E; cbn [dict_get].
    + apply String.eqb_eq in E. subst k.
      replace (String.eqb key key') with false
        by (symmetry; apply String.eqb_neq; exact Hne).
      reflexivity.
    + rewrite IH. reflexivity.
Qed.

Lemma dict_get_None_keys (key : string) (d : dict) :
  dict_get key d = None <-> ~ In key (map fst d).
Proof.
  induction d as [|[k v] d IH]; cbn [dict_get map fst In]; [tauto|].
  destruct (String.eqb key k) eqn:E.
  - apply String.eqb_eq in E. subst k. split; [discriminate|tauto].
  - apply String.eqb_neq in E. rewrite IH. split; [intros H [H'|H']; congruence|tauto].
Qed.

Lemma dict_set_keys (key : string) (value : pyobj) (d : dict) :
  map fst (dict_set key value d)
  = if dict_has key d then map fst d else map fst d ++ [key].
Proof.
  unfold dict_has.
  induction d as [|[k v] d IH]; cbn [dict_set dict_get map fst app];
    [reflexivity|].
  destruct (String.eqb key k) eqn:E; [reflexivity|].
  cbn [map fst]. rewrite IH. destruct (dict_get key d); reflexivity.
Qed.

Lemma dict_set_present (key : string) (value : pyobj) (d : dict) :
  dict_get key d = Some value -> dict_set key value d = d.
Proof.
  induction d as [|[k v] d IH]; cbn [dict_get dict_set]; [discriminate|].
  destruct (String.eqb key k) eqn:E.
  - intros H. injection H as ->. reflexivity.
  - intros H. rewrite (IH H). reflexivity.
Qed.

(** *** [deep_merge] *)

Lemma deep_merge_nil (base : dict) : deep_merge base [] = base.
Proof. reflexivity. Qed.

Lemma deep_merge_cons (base : dict) (key : string) (value : pyobj)
      (rest : dict) :
  deep_merge base ((key, value) :: rest)
  = deep_merge (dict_set key (merged_value (dict_get key base) value) base)
               rest.
Proof.
  unfold deep_merge at 1. cbn [deep_merge_obj]. unfold merge_entry.
  unfold merged_value.
  destruct (dict_get key base) as [[| | | | | |sub]|]; try reflexivity.
  destruct value; reflexivity.
Qed.

Lemma deep_merge_get_at (base override : dict) (key : string) :
  NoDup (map fst override) ->
  dict_get key (deep_merge base override)
  = match dict_get key override with
    | None => dict_get key base
    | Some value => Some (merged_value (dict_get key base) value)
    end.
Proof.
  revert base.
  induction override as [|[k v] rest IH]; intros base Hnd; [reflexivity|].
  cbn [map fst] in Hnd. apply NoDup_cons_iff in Hnd as [Hk Hnd].
  rewrite deep_merge_cons, (IH _ Hnd). cbn [dict_get].
  destruct (String.eqb key k) eqn:E.
  - apply String.eqb_eq in E. subst k.
    apply dict_get_None_keys in Hk. rewrite Hk.
    apply dict_get_set_same.
  - apply String.eqb_neq in E. rewrite (dict_get_set_other key k _ base E).
    reflexivity.
Qed.

(** X14. What [deep_merge] holds under each key. A key that [override]
    does not have keeps the value of [base]. A key that [override] has
    holds the value of [override], except when both values are
    dictionaries: then it holds their merge. *)
Theorem deep_merge_get (base override : dict) (key : string) :
  NoDup (map fst override) ->
  dict_get key (deep_merge base override)
  = match dict_get key override with
    | None => dict_get key base
    | Some value => Some (merged_value (dict_get key base) value)
    end.
Proof. apply deep_merge_get_at. Qed.

Lemma deep_merge_get_witness :
  dict_get "echo" (deep_merge DEFAULT_CONFIG
                     [("echo"%string, PDict [("uid"%string, PInt 100)])])
  = Some (PDict [("timeout"%string, PFloat 5%float);
                 ("uid"%string, PInt 100);
                 ("callsign_prefix"%string, PStr (text "RE>"))]).
Proof.
  rewrite (deep_merge_get DEFAULT_CONFIG
             [("echo"%string, PDict [("uid"%string, PInt 100)])] "echo").
  - reflexivity.
  - repeat constructor. intros [].
Defined.

Lemma deep_merge_keys_aux (override : dict) :
  forall base,
    NoDup (map fst override) ->
    map fst (deep_merge base override)
    = map fst base
      ++ filter (fun k => negb (dict_has k base)) (map fst override).
Proof.
  induction override as [|[k v] rest IH]; intros base Hnd.
  - cbn. rewrite app_nil_r. reflexivity.
  - cbn [map fst] in Hnd. apply NoDup_cons_iff in Hnd as [Hk Hnd].
    rewrite deep_merge_cons, (IH _ Hnd), dict_set_keys. cbn [map fst filter].
    assert (F : forall value,
               filter (fun k0 => negb (dict_has k0 (dict_set k value base)))
                      (map fst rest)
               = filter (fun k0 => negb (dict_has k0 base)) (map fst rest)).
    { intros value. apply filter_ext_in. intros k0 Hin. unfold dict_has.
      rewrite dict_get_set_other; [reflexivity|].
      intros ->. contradiction. }
    rewrite F. destruct (dict_has k base); cbn [negb].
    + reflexivity.
    + rewrite <- app_assoc. reflexivity.
Qed.

(** X15. The keys of a merge. The result has the keys of [base], in their
    order, followed by the keys of [override] that [base] lacks, in their
    order; and no key twice if [base] has none twice. *)
Theorem deep_merge_keys (base override : dict) :
  NoDup (map fst base) ->
  NoDup (map fst override) ->
  map fst (deep_merge base override)
  = map fst base
    ++ filter (fun k => negb (dict_has k base)) (map fst override) /\
  NoDup (map fst (deep_merge base override)).
Proof.
  intros Hb Ho. rewrite (deep_merge_keys_aux override base Ho).
  split; [reflexivity|].
  apply NoDup_app; [exact Hb|apply NoDup_filter; exact Ho|].
  intros k Hin Hin'. apply filter_In in Hin' as [_ Hh].
  unfold dict_has in Hh. destruct (dict_get k base) eqn:E; [discriminate|].
  apply dict_get_None_keys in E. contradiction.
Qed.

Lemma deep_merge_keys_witness :
  map fst (deep_merge DEFAULT_CONFIG
             [("extra"%string, PInt 1); ("echo"%string, PDict [])])
  = ["mqtt"; "topics"; "echo"; "logging"; "daemon"; "extra"]%string /\
  NoDup (map fst (deep_merge DEFAULT_CONFIG
                    [("extra"%string, PInt 1); ("echo"%string, PDict [])])).
Proof.
  apply (deep_merge_keys DEFAULT_CONFIG
           [("extra"%string, PInt 1); ("echo"%string, PDict [])]).
  - repeat constructor; cbn; intuition discriminate.
  - repeat constructor; cbn; intuition discriminate.
Defined.

(** *** Paths *)

Lemma keys_unique_NoDup (d : dict) :
  keys_unique (PDict d) -> NoDup (map fst d).
Proof. cbn [keys_unique]. tauto. Qed.

Lemma keys_unique_get (d : dict) (key : string) (v : pyobj) :
  keys_unique (PDict d) -> dict_get key d = Some v -> keys_unique v.
Proof.
  cbn [keys_unique]. intros [_ Hall].
  induction d as [|[k x] d IH]; cbn [dict_get]; [discriminate|].
  destruct Hall as [Hx Hall].
  destruct (String.eqb key k); [intros H; injection H as <-; exact Hx|].
  apply IH. exact Hall.
Qed.

Lemma silent_on_get_path (path : list string) :
  forall d, silent_on path d = true -> get_path path d = None.
Proof.
  induction path as [|key path IH]; intros d; cbn [silent_on get_path];
    [discriminate|].
  destruct (dict_get key d) as [v|]; [|reflexivity].
  destruct v; try discriminate.
  destruct path as [|key' path']; [cbn [silent_on]; discriminate|].
  apply IH.
Qed.

(** X16. The override wins. A value that is not a dictionary and that
    [override] holds under a path of keys is what the merge holds under
    that path, whatever [base] holds. *)
Theorem deep_merge_override_wins (path : list string) :
  forall (base override : dict) (value : pyobj),
    keys_unique (PDict override) ->
    get_path path override = Some value ->
    is_dict value = false ->
    get_path path (deep_merge base override) = Some value.
Proof.
  induction path as [|key path IH]; intros base override value Hu Hg Hd;
    [discriminate|].
  cbn [get_path] in Hg |- *.
  rewrite (deep_merge_get_at base override key (keys_unique_NoDup _ Hu)).
  destruct (dict_get key override) as [v|] eqn:Ev; [|discriminate].
  pose proof (keys_unique_get override key v Hu Ev) as Hv.
  destruct path as [|key' path'].
  - injection Hg as ->. unfold merged_value.
    destruct (dict_get key base) as [[| | | | | |sub]|]; try reflexivity.
    destruct value; try reflexivity. discriminate.
  - destruct v as [| | | | | |o]; try discriminate.
    unfold merged_value.
    destruct (dict_get key base) as [[| | | | | |sub]|]; try exact Hg.
    apply IH; assumption.
Qed.

Lemma deep_merge_override_wins_witness :
  get_path ["echo"; "uid"]%string
    (deep_merge DEFAULT_CONFIG
       [("echo"%string, PDict [("uid"%string, PInt 100)])])
  = Some (PInt 100).
Proof.
  apply (deep_merge_override_wins ["echo"; "uid"]%string DEFAULT_CONFIG
           [("echo"%string, PDict [("uid"%string, PInt 100)])] (PInt 100)).
  - cbn. repeat split; repeat constructor; intros [].
  - reflexivity.
  - reflexivity.
Defined.

(** X17. The base is kept. Under a path on which [override] says nothing,
    the merge holds what [base] holds. *)
Theorem deep_merge_keeps_base (path : list string) :
  forall (base override : dict),
    keys_unique (PDict override) ->
    silent_on path override = true ->
    get_path path (deep_merge base override) = get_path path base.
Proof.
  induction path as [|key path IH]; intros base override Hu Hs;
    [reflexivity|].
  cbn [get_path silent_on] in Hs |- *.
  rewrite (deep_merge_get_at base override key (keys_unique_NoDup _ Hu)).
  destruct (dict_get key override) as [v|] eqn:Ev; [|reflexivity].
  pose proof (keys_unique_get override key v Hu Ev) as Hv.
  destruct v as [| | | | | |o]; try discriminate.
  destruct path as [|key' path']; [cbn [silent_on] in Hs; discriminate|].
  unfold merged_value.
  destruct (dict_get key base) as [[| | | | | |sub]|];
    try (apply silent_on_get_path; exact Hs).
  apply IH; assumption.
Qed.

Lemma deep_merge_keeps_base_witness :
  get_path ["echo"; "callsign_prefix"]%string
    (deep_merge DEFAULT_CONFIG
       [("echo"%string, PDict [("uid"%string, PInt 100)])])
  = get_path ["echo"; "callsign_prefix"]%string DEFAULT_CONFIG.
Proof.
  apply (deep_merge_keeps_base ["echo"; "callsign_prefix"]%string
           DEFAULT_CONFIG
           [("echo"%string, PDict [("uid"%string, PInt 100)])]).
  - cbn. repeat split; repeat constructor; intros [].
  - reflexivity.
Defined.

(** *** Merging a configuration with itself or into nothing *)

Lemma deep_merge_fixed (items : dict) :
  forall base,
    (forall k v, In (k, v) items ->
                 dict_get k base = Some v /\ merged_value (Some v) v = v) ->
    deep_merge base items = base.
Proof.
  induction items as [|[k v] rest IH]; intros base H; [reflexivity|].
  rewrite deep_merge_cons.
  destruct (H k v (or_introl eq_refl)) as [Hg Hm].
  rewrite Hg, Hm, (dict_set_present k v base Hg).
  apply IH. intros k' v' Hin. apply H. right. exact Hin.
Qed.

Lemma dict_get_In (d : dict) (k : string) (v : pyobj) :
  NoDup (map fst d) -> In (k, v) d -> dict_get k d = Some v.
Proof.
  induction d as [|[k' v'] d IH]; intros Hnd Hin; [contradiction|].
  cbn [map fst] in Hnd. apply NoDup_cons_iff in Hnd as [Hk Hnd].
  cbn [dict_get]. destruct Hin as [Hin|Hin].
  - injection Hin as -> ->. rewrite String.eqb_refl. reflexivity.
  - destruct (String.eqb k k') eqn:E; [|apply IH; assumption].
    apply String.eqb_eq in E. subst k'. exfalso. apply Hk.
    apply (in_map fst) in Hin. exact Hin.
Qed.

Lemma size_In (d : dict) (k : string) (v : pyobj) :
  In (k, v) d -> (size v < size (PDict d))%nat.
Proof.
  cbn [size]. induction d as [|[k' v'] d IH]; intros Hin; [contradiction|].
  destruct Hin as [Hin|Hin].
  - injection Hin as -> ->. lia.
  - specialize (IH Hin). lia.
Qed.

Lemma keys_unique_In (d : dict) (k : string) (v : pyobj) :
  keys_unique (PDict d) -> In (k, v) d -> keys_unique v.
Proof.
  intros Hu Hin. apply (keys_unique_get d k v Hu).
  apply dict_get_In; [apply keys_unique_NoDup; exact Hu|exact Hin].
Qed.

Lemma deep_merge_self_sized (n : nat) :
  forall d, (size (PDict d) < n)%nat -> keys_unique (PDict d) ->
            deep_merge d d = d.
Proof.
  induction n as [|n IH]; intros d Hs Hu; [lia|].
  apply deep_merge_fixed. intros k v Hin.
  split; [apply dict_get_In; [apply keys_unique_NoDup; exact Hu|exact Hin]|].
  destruct v as [| | | | | |o]; try reflexivity.
  unfold merged_value. f_equal. apply IH.
  - pose proof (size_In d k (PDict o) Hin). lia.
  - apply (keys_unique_In d k (PDict o) Hu Hin).
Qed.

Lemma deep_merge_onto (override : dict) :
  forall base,
    NoDup (map fst override) ->
    (forall k, In k (map fst override) -> dict_get k base = None) ->
    deep_merge base override = base ++ override.
Proof.
  induction override as [|[k v] rest IH]; intros base Hnd Hfresh.
  - rewrite app_nil_r. reflexivity.
  - cbn [map fst] in Hnd. apply NoDup_cons_iff in Hnd as [Hk Hnd].
    rewrite deep_merge_cons, (Hfresh k (or_introl eq_refl)).
    cbn [merged_value].
    assert (Hset : dict_set k v base = base ++ [(k, v)]).
    { assert (G : dict_get k base = None) by (apply Hfresh; left; reflexivity).
      clear - G. induction base as [|[k' v'] base IHb]; [reflexivity|].
      cbn [dict_get] in G. cbn [dict_set app].
      destruct (String.eqb k k'); [discriminate|].
      rewrite (IHb G). reflexivity. }
    replace (merged_value None v) with v by (destruct v; reflexivity).
    rewrite Hset, IH; [rewrite <- app_assoc; reflexivity|exact Hnd|].
    intros k0 Hin. rewrite <- Hset.
    rewrite dict_get_set_other; [apply Hfresh; right; exact Hin|].
    intros ->. contradiction.
Qed.

(** X18. Two laws of [deep_merge] on dictionaries without repeated keys:
    merging a configuration into the empty one gives it back, and so does
    merging it with itself. *)
Theorem deep_merge_identity_and_idempotence (d : dict) :
  keys_unique (PDict d) ->
  deep_merge [] d = d /\ deep_merge d d = d.
Proof.
  intros Hu. split.
  - apply (deep_merge_onto d []); [apply keys_unique_NoDup; exact Hu|].
    reflexivity.
  - apply (deep_merge_self_sized (S (size (PDict d)))); [lia|exact Hu].
Qed.

Lemma DEFAULT_CONFIG_keys_unique : keys_unique (PDict DEFAULT_CONFIG).
Proof.
  cbn [keys_unique DEFAULT_CONFIG map fst].
  repeat split; repeat constructor; cbn [In]; intuition discriminate.
Qed.

Lemma deep_merge_identity_and_idempotence_witness :
  deep_merge [] DEFAULT_CONFIG = DEFAULT_CONFIG /\
  deep_merge DEFAULT_CONFIG DEFAULT_CONFIG = DEFAULT_CONFIG.
Proof.
  apply (deep_merge_identity_and_idempotence DEFAULT_CONFIG).
  cbn [keys_unique DEFAULT_CONFIG map fst].
  repeat split; repeat constructor; cbn [In]; intuition discriminate.
Defined.

(** *** [validate_config] *)

Lemma get_present (section : pyobj) (key : string) (v : pyobj) :
  get section key = Ok v -> v <> PNone ->
  exists d, section = PDict d /\ dict_get key d = Some v.
Proof.
  destruct section as [| | | | | |d]; cbn [get]; try discriminate.
  intros H Hv. exists d. split; [reflexivity|].
  destruct (dict_get key d) as [x|]; [congruence|].
  exfalso. apply Hv. congruence.
Qed.

Lemma get_path_2 (config : dict) (section key : string) (d : dict)
      (v : pyobj) :
  dict_has section config = true ->
  item config section = PDict d ->
  dict_get key d = Some v ->
  get_path [section; key] config = Some v.
Proof.
  unfold dict_has, item. cbn [get_path].
  destruct (dict_get section config) as [x|]; [|discriminate].
  intros _ -> H. cbn [get_path]. rewrite H. reflexivity.
Qed.

Lemma in_valid_levels_In (v : pyobj) :
  in_valid_levels v = true -> exists s, v = PStr s /\ In s valid_levels.
Proof.
  destruct v as [| | | |s| |]; cbn [in_valid_levels]; try discriminate.
  intros H. exists s. split; [reflexivity|].
  apply existsb_exists in H as (l & Hin & Heq).
  assert (E : forall a b : pystr, list_eqb Z.eqb a b = true -> a = b).
  { clear. induction a as [|x a IH]; destruct b as [|y b]; cbn;
      try discriminate; [reflexivity|].
    intros H. apply andb_true_iff in H as [H1 H2].
    apply Z.eqb_eq in H1. rewrite (IH b H2), H1. reflexivity. }
  rewrite (E s l Heq). exact Hin.
Qed.

Lemma not_int_between_false (lo hi : Z) (v : pyobj) :
  not_int_between lo hi v = false ->
  exists z, as_int v = Some z /\ lo <= z <= hi.
Proof.
  unfold not_int_between. destruct (as_int v) as [z|]; [|discriminate].
  intros H. exists z. split; [reflexivity|]. lia.
Qed.

(** X19. What a configuration that [validate_config] accepts holds. The
    function returns [True] or raises; when it returns, the broker and
    the two topics are present and true values, the port is an integer
    from 1 to 65535, the timeout is a number that is not [<= 0], the
    relay's uid is an integer that fits the 16-bit header field, the
    callsign prefix is a [str], and the logging level is one of the five
    level names. *)
Theorem validate_config_accepts (config : dict) (answer : bool) :
  validate_config config = Ok answer ->
  answer = true /\
  (exists broker, get_path ["mqtt"; "broker"]%string config = Some broker /\
                  truthy broker = true) /\
  (exists port z, get_path ["mqtt"; "port"]%string config = Some port /\
                  as_int port = Some z /\ 1 <= z <= 65535) /\
  (exists topic, get_path ["topics"; "subscribe"]%string config = Some topic /\
                 truthy topic = true) /\
  (exists topic, get_path ["topics"; "publish"]%string config = Some topic /\
                 truthy topic = true) /\
  (exists timeout, get_path ["echo"; "timeout"]%string config = Some timeout /\
                   not_positive_number timeout = false) /\
  (exists uid z, get_path ["echo"; "uid"]%string config = Some uid /\
                 as_int uid = Some z /\ fits UID_SIZE (PyInt z) = true) /\
  (exists prefix, get_path ["echo"; "callsign_prefix"]%string config
                  = Some (PStr prefix)) /\
  (exists level, get_path ["logging"; "level"]%string config
                 = Some (PStr level) /\ In level valid_levels).
Proof.
  unfold validate_config.
  destruct (forallb _ required_sections) eqn:Hsec; cbn [negb];
    [|discriminate].
  cbn [required_sections forallb] in Hsec.
  apply andb_true_iff in Hsec as [Hm Hsec].
  apply andb_true_iff in Hsec as [Ht Hsec].
  apply andb_true_iff in Hsec as [He Hsec].
  apply andb_true_iff in Hsec as [Hl _].
  destruct (get (item config "mqtt") "broker") as [broker|] eqn:G1;
    cbn [rbind]; [|discriminate].
  destruct (truthy broker) eqn:T1; cbn [negb]; [|discriminate].
  destruct (get (item config "mqtt") "port") as [port|] eqn:G2;
    cbn [rbind]; [|discriminate].
  destruct (not_int_between 1 65535 port) eqn:T2; [discriminate|].
  destruct (get (item config "topics") "subscribe") as [subscribe|] eqn:G3;
    cbn [rbind]; [|discriminate].
  destruct (truthy subscribe) eqn:T3; cbn [negb]; [|discriminate].
  destruct (get (item config "topics") "publish") as [publish|] eqn:G4;
    cbn [rbind]; [|discriminate].
  destruct (truthy publish) eqn:T4; cbn [negb]; [|discriminate].
  destruct (get (item config "echo") "timeout") as [timeout|] eqn:G5;
    cbn [rbind]; [|discriminate].
  destruct (not_positive_number timeout) eqn:T5; [discriminate|].
  destruct (get (item config "echo") "uid") as [uid|] eqn:G6;
    cbn [rbind]; [|discriminate].
  destruct (not_int_between 0 65535 uid) eqn:T6; [discriminate|].
  destruct (get (item config "echo") "callsign_prefix") as [prefix|] eqn:G7;
    cbn [rbind]; [|discriminate].
  destruct (is_str prefix) eqn:T7; cbn [negb]; [|discriminate].
  destruct (get (item config "logging") "level") as [level|] eqn:G8;
    cbn [rbind]; [|discriminate].
  destruct (in_valid_levels level) eqn:T8; cbn [negb]; [|discriminate].
  intros H. split; [congruence|]. clear H.
  apply not_int_between_false in T2 as (zp & Ap & Rp).
  apply not_int_between_false in T6 as (zu & Au & Ru).
  apply in_valid_levels_In in T8 as (lv & -> & Hlv).
  destruct prefix as [| | | |pre| |]; try discriminate.
  destruct (get_present _ _ _ G1) as (d1 & S1 & D1);
    [intros ->; discriminate|].
  destruct (get_present _ _ _ G2) as (d2 & S2 & D2);
    [intros ->; discriminate|].
  destruct (get_present _ _ _ G3) as (d3 & S3 & D3);
    [intros ->; discriminate|].
  destruct (get_present _ _ _ G4) as (d4 & S4 & D4);
    [intros ->; discriminate|].
  destruct (get_present _ _ _ G5) as (d5 & S5 & D5);
    [intros ->; discriminate|].
  destruct (get_present _ _ _ G6) as (d6 & S6 & D6);
    [intros ->; discriminate|].
  destruct (get_present _ _ _ G7) as (d7 & S7 & D7);
    [discriminate|].
  destruct (get_present _ _ _ G8) as (d8 & S8 & D8);
    [discriminate|].
  split; [exists broker; split;
          [exact (get_path_2 _ _ _ _ _ Hm S1 D1)|exact T1]|].
  split; [exists port, zp; split;
          [exact (get_path_2 _ _ _ _ _ Hm S2 D2)|split; assumption]|].
  split; [exists subscribe; split;
          [exact (get_path_2 _ _ _ _ _ Ht S3 D3)|exact T3]|].
  split; [exists publish; split;
          [exact (get_path_2 _ _ _ _ _ Ht S4 D4)|exact T4]|].
  split; [exists timeout; split;
          [exact (get_path_2 _ _ _ _ _ He S5 D5)|exact T5]|].
  split; [exists uid, zu; split;
          [exact (get_path_2 _ _ _ _ _ He S6 D6)|split; [exact Au|]]|].
  { cbn [fits]. change (2 ^ (8 * Z.of_nat UID_SIZE)) with 65536. lia. }
  split; [exists pre; exact (get_path_2 _ _ _ _ _ He S7 D7)|].
  exists lv. split; [exact (get_path_2 _ _ _ _ _ Hl S8 D8)|exact Hlv].
Qed.

Lemma validate_config_accepts_witness :
  (exists uid z,
      get_path ["echo"; "uid"]%string DEFAULT_CONFIG = Some uid /\
      as_int uid = Some z /\ fits UID_SIZE (PyInt z) = true) /\
  (exists prefix, get_path ["echo"; "callsign_prefix"]%string DEFAULT_CONFIG
                  = Some (PStr prefix)).
Proof.
  destruct (validate_config_accepts DEFAULT_CONFIG true)
    as (_ & _ & _ & _ & _ & _ & Huid & Hprefix & _).
  - reflexivity.
  - split; [exact Huid|exact Hprefix].
Defined.

(** X20. A section that is present but is not a dictionary. When the four
    required sections are present and the value under [mqtt] is not a
    dictionary, [validate_config] raises [AttributeError] for its [get],
    not the [ValueError] of its other refusals. *)
Theorem validate_config_section_not_a_dict (config : dict) :
  forallb (fun section => dict_has section config) required_sections = true ->
  is_dict (item config "mqtt") = false ->
  validate_config config = Raise (AttributeError "get").
Proof.
  intros Hs Hd. unfold validate_config. rewrite Hs. cbn [negb].
  destruct (item config "mqtt"); try reflexivity. discriminate.
Qed.

Lemma validate_config_section_not_a_dict_witness :
  validate_config (deep_merge DEFAULT_CONFIG [("mqtt"%string, PInt 5)])
  = Raise (AttributeError "get").
Proof.
  apply (validate_config_section_not_a_dict
           (deep_merge DEFAULT_CONFIG [("mqtt"%string, PInt 5)])).
  - reflexivity.
  - reflexivity.
Defined.

(** X21. The defaults with another relay uid. Merging into
    [DEFAULT_CONFIG] a configuration that gives only [echo.uid] keeps
    every other default, and [validate_config] accepts the result exactly
    when the value is an integer (a [bool] is one) from 0 to 65535, both
    ends included, and raises [ValueError] exactly when it is not. *)
Theorem default_config_with_uid (uid : pyobj) :
  let config :=
    deep_merge DEFAULT_CONFIG
               [("echo"%string, PDict [("uid"%string, uid)])] in
  get_path ["echo"; "uid"]%string config = Some uid /\
  (forall section key,
      (section, key) <> ("echo", "uid")%string ->
      get_path [section; key] config = get_path [section; key] DEFAULT_CONFIG)
  /\
  (validate_config config = Ok true <->
   exists z, as_int uid = Some z /\ 0 <= z <= 65535) /\
  (validate_config config = Raise ValueError <->
   ~ exists z, as_int uid = Some z /\ 0 <= z <= 65535).
Proof.
  cbv zeta.
  assert (E : deep_merge DEFAULT_CONFIG
                [("echo"%string, PDict [("uid"%string, uid)])]
              = dict_set "echo"
                  (PDict [("timeout"%string, PFloat 5%float);
                          ("uid"%string, uid);
                          ("callsign_prefix"%string, PStr (text "RE>"))])
                  DEFAULT_CONFIG) by reflexivity.
  rewrite E. split; [reflexivity|]. split.
  - intros section key Hne. cbn [get_path].
    destruct (String.eqb section "echo") eqn:Es.
    + apply String.eqb_eq in Es. subst section.
      rewrite dict_get_set_same.
      change (dict_get "echo" DEFAULT_CONFIG)
        with (Some (PDict [("timeout"%string, PFloat 5%float);
                           ("uid"%string, PInt 65535);
                           ("callsign_prefix"%string, PStr (text "RE>"))])).
      cbn [dict_get].
      destruct (String.eqb key "timeout"); [reflexivity|].
      destruct (String.eqb key "uid") eqn:Ek; [|reflexivity].
      apply String.eqb_eq in Ek. subst key. contradiction Hne. reflexivity.
    + apply String.eqb_neq in Es.
      rewrite (dict_get_set_other section "echo" _ DEFAULT_CONFIG Es).
      reflexivity.
  - assert (V : validate_config
                  (dict_set "echo"
                     (PDict [("timeout"%string, PFloat 5%float);
                             ("uid"%string, uid);
                             ("callsign_prefix"%string, PStr (text "RE>"))])
                     DEFAULT_CONFIG)
                = if not_int_between 0 65535 uid
                  then Raise ValueError else Ok true).
    { unfold validate_config. cbn -[not_int_between].
      destruct (not_int_between 0 65535 uid); reflexivity. }
    rewrite V. unfold not_int_between.
    destruct (as_int uid) as [z|].
    + destruct (0 <=? z) eqn:Lo; [destruct (z <=? 65535) eqn:Hi|];
        cbn [andb negb].
      * split; split; try reflexivity; try discriminate.
        -- intros _. exists z. split; [reflexivity|lia].
        -- intros N. exfalso. apply N. exists z. split; [reflexivity|lia].
      * split; split; try reflexivity; try discriminate.
        -- intros (z' & Hz & Hr). apply some_inj in Hz. subst z'. lia.
        -- intros _ (z' & Hz & Hr). apply some_inj in Hz. subst z'. lia.
      * split; split; try reflexivity; try discriminate.
        -- intros (z' & Hz & Hr). apply some_inj in Hz. subst z'. lia.
        -- intros _ (z' & Hz & Hr). apply some_inj in Hz. subst z'. lia.
    + split; split; try reflexivity; try discriminate.
      * intros (z' & Hz & _). discriminate Hz.
      * intros _ (z' & Hz & _). discriminate Hz.
Qed.

(** X21 at the two ends of the range and just outside it. *)
Lemma default_config_with_uid_witness :
  validate_config
    (deep_merge DEFAULT_CONFIG [("echo"%string, PDict [("uid"%string, PInt 0)])])
  = Ok true /\
  validate_config
    (deep_merge DEFAULT_CONFIG
                [("echo"%string, PDict [("uid"%string, PInt 65535)])])
  = Ok true /\
  validate_config
    (deep_merge DEFAULT_CONFIG
                [("echo"%string, PDict [("uid"%string, PInt 65536)])])
  = Raise ValueError /\
  validate_config
    (deep_merge DEFAULT_CONFIG
                [("echo"%string, PDict [("uid"%string, PInt (-1))])])
  = Raise ValueError.
Proof.
  pose proof (default_config_with_uid (PInt 0)) as H0.
  pose proof (default_config_with_uid (PInt 65535)) as H1.
  pose proof (default_config_with_uid (PInt 65536)) as H2.
  pose proof (default_config_with_uid (PInt (-1))) as H3.
  cbv zeta in H0, H1, H2, H3.
  destruct H0 as (_ & _ & [_ H0] & _). destruct H1 as (_ & _ & [_ H1] & _).
  destruct H2 as (_ & _ & _ & [_ H2]). destruct H3 as (_ & _ & _ & [_ H3]).
  split; [apply H0; exists 0; split; [reflexivity|lia]|].
  split; [apply H1; exists 65535; split; [reflexivity|lia]|].
  split.
  - apply H2. intros (z & Hz & Hr). cbn [as_int] in Hz.
    apply some_inj in Hz. subst z. lia.
  - apply H3. intros (z & Hz & Hr). cbn [as_int] in Hz.
    apply some_inj in Hz. subst z. lia.
Defined.
